(** * gccm.py: the MAGMA DSL compiler of libCEED's magma backend

    A shallow embedding of [backends/magma/gccm.py].  Python strings are
    [string]s, Python integers are [Z] (a failed [str.find] is [-1] and
    slices clamp their bounds as Python does), exceptions are values of
    [exn], and the two output files are text accumulated in a state
    record.  The file has the primitives of Python that the program uses
    ([Py]), the three auxiliary functions, the loop of [main] and [main]
    itself, then the vocabulary of the statements and the statements. *)

From Stdlib Require Import String Ascii List ZArith Lia Bool Arith.
From Stdlib Require Import Decimal DecimalNat DecimalString.
Import ListNotations.

Open Scope string_scope.
Open Scope Z_scope.

(** ** Python string primitives *)

Module Py.

Definition len (s : string) : Z := Z.of_nat (String.length s).

Fixpoint take (n : nat) (s : string) : string :=
  match n, s with
  | S k, String c s' => String c (take k s')
  | _, _ => EmptyString
  end.

Fixpoint drop (n : nat) (s : string) : string :=
  match n, s with
  | S k, String _ s' => drop k s'
  | _, _ => s
  end.

(** Normalisation of a slice bound against a length: negative bounds count
    from the end, and everything is clamped to [0 .. n]. *)
Definition clamp (i n : Z) : Z :=
  if i <? 0 then Z.max (i + n) 0 else Z.min i n.

(** [s[lo:hi]] *)
Definition slice (lo hi : Z) (s : string) : string :=
  let a := clamp lo (len s) in
  let b := clamp hi (len s) in
  take (Z.to_nat (b - a)) (drop (Z.to_nat a) s).

(** [s[lo:]] *)
Definition slice_from (lo : Z) (s : string) : string :=
  drop (Z.to_nat (clamp lo (len s))) s.

(** [s[:hi]] *)
Definition slice_to (hi : Z) (s : string) : string :=
  take (Z.to_nat (clamp hi (len s))) s.

(** [s[i]]: [None] stands for IndexError. *)
Definition getitem (i : Z) (s : string) : option ascii :=
  let j := if i <? 0 then i + len s else i in
  if (j <? 0) || (len s <=? j) then None else String.get (Z.to_nat j) s.

(** [s.startswith(p)] *)
Fixpoint startswith (p s : string) : bool :=
  match p, s with
  | EmptyString, _ => true
  | String a p', String b s' => Ascii.eqb a b && startswith p' s'
  | String _ _, EmptyString => false
  end.

Fixpoint find_nat (sub s : string) : option nat :=
  if startswith sub s then Some O
  else match s with
       | EmptyString => None
       | String _ s' => option_map S (find_nat sub s')
       end.

(** [s.find(sub)]: lowest index of an occurrence, [-1] when there is none. *)
Definition find (sub s : string) : Z :=
  match find_nat sub s with
  | Some k => Z.of_nat k
  | None => -1
  end.

Fixpoint rfind_nat (sub s : string) : option nat :=
  match s with
  | EmptyString => if startswith sub s then Some O else None
  | String _ s' =>
      match rfind_nat sub s' with
      | Some k => Some (S k)
      | None => if startswith sub s then Some O else None
      end
  end.

(** [s.rfind(sub)] *)
Definition rfind (sub s : string) : Z :=
  match rfind_nat sub s with
  | Some k => Z.of_nat k
  | None => -1
  end.

(** Left-to-right scan of [str.count]: after a match the scan resumes
    behind the matched text, [skip] counts the characters still to pass. *)
Fixpoint count_skip (sub : string) (skip : nat) (s : string) : nat :=
  match s with
  | EmptyString => O
  | String _ s' =>
      match skip with
      | S k => count_skip sub k s'
      | O => if startswith sub s
             then S (count_skip sub (Nat.pred (String.length sub)) s')
             else count_skip sub O s'
      end
  end.

(** [s.count(sub)]: number of non-overlapping occurrences. *)
Definition count (sub s : string) : nat :=
  match sub with
  | EmptyString => S (String.length s)
  | _ => count_skip sub O s
  end.

Fixpoint replace_skip (old new : string) (skip : nat) (s : string) : string :=
  match s with
  | EmptyString => EmptyString
  | String c s' =>
      match skip with
      | S k => replace_skip old new k s'
      | O => if startswith old s
             then new ++ replace_skip old new (Nat.pred (String.length old)) s'
             else String c (replace_skip old new O s')
      end
  end.

(** [s.replace(old, new)] for a non-empty [old]. *)
Definition replace (old new s : string) : string := replace_skip old new O s.

(** [s.split(sep)] for a one-character separator. *)
Fixpoint split (sep : ascii) (s : string) : list string :=
  match s with
  | EmptyString => [EmptyString]
  | String c s' =>
      if Ascii.eqb c sep then EmptyString :: split sep s'
      else match split sep s' with
           | h :: t => String c h :: t
           | [] => [String c EmptyString]
           end
  end.

(** [str(n)] of a non-negative integer. *)
Definition str (n : nat) : string := NilEmpty.string_of_uint (Nat.to_uint n).

(** [range(n)] *)
Definition range (n : Z) : list Z := map Z.of_nat (seq 0 (Z.to_nat n)).

End Py.

(** ** Exceptions and results *)

Inductive exn : Set :=
| ValueError          (* [str.index]: substring not found *)
| IndexError          (* list index out of range *)
| FileNotFoundError   (* [open] of a missing file *)
| OSError             (* any other failure of [open] *)
| UnicodeDecodeError. (* [read] in text mode of bytes that do not decode *)

Inductive result (A : Type) : Type :=
| Ok (a : A)
| Raise (e : exn).
Arguments Ok {A} a.
Arguments Raise {A} e.

Definition bind {A B : Type} (r : result A) (k : A -> result B) : result B :=
  match r with
  | Ok a => k a
  | Raise e => Raise e
  end.

Notation "x <- r ;; k" := (bind r (fun x => k))
  (at level 61, r at next level, right associativity).

(** [l[i]] on a list *)
Definition item (l : list string) (i : nat) : result string :=
  match nth_error l i with
  | Some x => Ok x
  | None => Raise IndexError
  end.

(** [l[i] = v] on a list whose index [i] exists *)
Fixpoint setitem (i : nat) (v : string) (l : list string) : list string :=
  match l, i with
  | [], _ => []
  | _ :: t, O => v :: t
  | h :: t, S k => h :: setitem k v t
  end.

Definition nl : string := String (ascii_of_nat 10) EmptyString.
Definition dq : string := String (ascii_of_nat 34) EmptyString.

(** ** Auxiliary functions of gccm.py *)

(** The [for i in range(i3+1, i4)] loop of [find_matching]: [s] is
    [line[i:]], [num] the nesting counter before looking at [line[i]]. *)
Fixpoint match_scan (left right : ascii) (s : string) (i num : Z) : option Z :=
  match s with
  | EmptyString => None
  | String c s' =>
      let num := if Ascii.eqb c right then num - 1
                 else if Ascii.eqb c left then num + 1
                 else num in
      if num =? 0 then Some (i + 1) else match_scan left right s' (i + 1) num
  end.

Definition find_matching (line : string) (left right : ascii) : Z * Z :=
  let i3 := Py.find (String left EmptyString) line in
  let i4 := Py.len line in
  match match_scan left right (Py.slice_from (i3 + 1) line) (i3 + 1) 1 with
  | Some e => (i3, e)
  | None => (i3, i4)
  end.

(** [c in {' ', '*', '&'}] *)
Definition is_sep (c : ascii) : bool :=
  Ascii.eqb c " " || Ascii.eqb c "*" || Ascii.eqb c "&".

Definition sep_at (args : string) (i : Z) : bool :=
  match Py.getitem i args with
  | Some c => is_sep c
  | None => false
  end.

(** One pass of the outer loop of [find_argslist] on [(args, arglist)]:
    the inner loop looks at [args[i1-j]] for [j = 0 .. i1-1] and, at the
    first separator, appends the name and drops the entry. *)
Definition argslist_step (st : string * string) : string * string :=
  let '(args, arglist) := st in
  let i1 := Py.find "," args in
  let i1 := if i1 =? -1 then Py.find ")" args else i1 in
  match List.find (fun j => sep_at args (i1 - j)) (Py.range i1) with
  | Some j => (Py.slice_from (i1 + 1) args,
               arglist ++ "," ++ Py.slice (i1 - j + 1) i1 args)
  | None => (args, arglist)
  end.

Fixpoint repeat_step {A : Type} (n : nat) (f : A -> A) (x : A) : A :=
  match n with
  | O => x
  | S k => repeat_step k f (f x)
  end.

Definition find_argslist (args : string) : string :=
  let args := args ++ ")" in
  let numargs := (Py.count "," args + 1)%nat in
  let '(_, arglist) := repeat_step numargs argslist_step (args, "") in
  Py.slice_from 1 arglist.

(** One pass of the loop of [find_argsbound] on [(bounds, args, argsbound)]. *)
Definition argsbound_step (st : string * string * string) (i : nat)
  : string * string * string :=
  let '(bounds, args, argsbound) := st in
  let argsbound := if (i =? 0)%nat then argsbound else argsbound ++ "," in
  let args := if (i =? 0)%nat then args else args ++ "," in
  let i1 := Py.find "=" bounds in
  let args := args ++ Py.slice_to i1 bounds in
  let argsbound :=
    argsbound ++ Py.slice (i1 + 1) (Py.find ":" bounds) bounds ++ "," in
  let argsbound :=
    argsbound ++ Py.slice (Py.find ":" bounds + 1) (Py.find "," bounds) bounds in
  let bounds := Py.slice_from (Py.find "," bounds + 1) bounds in
  (bounds, args, argsbound).

Definition find_argsbound (bounds : string) : string * string :=
  let bounds := bounds ++ "," in
  let numargs := Py.count "=" bounds in
  let '(_, args, argsbound) :=
    fold_left argsbound_step (seq 0 numargs) (bounds, "", "") in
  (args, argsbound).

(** ** The body of [main]'s loop *)

Definition marker : string := "magma_template".

(** [kname = "magma_template" + "_" + str(kernel) + "_" + fname] *)
Definition kname_of (kernel : nat) (fname : string) : string :=
  "magma_template" ++ "_" ++ Py.str kernel ++ "_" ++ fname.

Definition kcall_of (kname boundargs : string) : string :=
  kname ++ "(" ++ boundargs ++ ");".

(** [for i in range(numparts): text += line(parts[i])]; the index always
    exists here since [numparts = len(parts)]. *)
Definition for_parts (line : string -> string) (parts : list string) : string :=
  String.concat "" (map line parts).

Definition declaration_of (kname : string) (parts : list string) (args : string)
  : string :=
  "void                                            " ++ nl
  ++ kname ++ "(                                        " ++ nl
  ++ for_parts (fun p => "    int " ++ p ++ "begin, int " ++ p ++ "end," ++ nl) parts
  ++ "    " ++ args ++ ");                              " ++ nl.

(** Lines 83-85: the table of index sources and its two adjustments. *)
Definition partsinit_of (numparts : nat) : list string :=
  let partsinit := ["blockIdx.x"; "blockIdx.y"; "threadIdx.x"] in
  let partsinit :=
    if (numparts =? 1)%nat then setitem 0 (nth 2 partsinit "") partsinit
    else partsinit in
  let partsinit :=
    if (numparts =? 2)%nat then setitem 2 (nth 2 partsinit "") partsinit
    else partsinit in
  partsinit.

(** Lines 95-96: [for i in range(numparts)], from index [i] on;
    [partsinit[i]] raises IndexError past the end of the table. *)
Fixpoint bindings_from (i : nat) (parts partsinit : list string) : result string :=
  match parts with
  | [] => Ok ""
  | p :: ps =>
      src <- item partsinit i ;;
      rest <- bindings_from (S i) ps partsinit ;;
      Ok ("   int " ++ p ++ " = " ++ src ++ ";      " ++ nl ++ rest)
  end.

Definition bindings (parts : list string) : result string :=
  bindings_from 0 parts (partsinit_of (List.length parts)).

Definition signature (parts : list string) (args : string) (tail : string) : string :=
  for_parts (fun p => "    int " ++ p ++ "begin, int " ++ p ++ "end,  " ++ nl) parts
  ++ "    " ++ args ++ tail.

(** Lines 106-115: the launch geometry of the interface function. *)
Definition geometry (parts : list string) : result string :=
  let numparts := List.length parts in
  if (numparts =? 1)%nat then
    p0 <- item parts 0 ;;
    Ok ("   dim3 grid(1, 1);                                   " ++ nl
        ++ "   dim3 threads(" ++ p0 ++ "end-" ++ p0 ++ "begin);" ++ nl ++ nl)
  else if (numparts =? 2)%nat then
    p0 <- item parts 0 ;;
    p1 <- item parts 1 ;;
    Ok ("   dim3 grid(   " ++ p0 ++ "end -" ++ p0 ++ "begin);  " ++ nl
        ++ "   dim3 threads(" ++ p1 ++ "end-" ++ p1 ++ "begin);" ++ nl ++ nl)
  else
    p0 <- item parts 0 ;;
    p1 <- item parts 1 ;;
    p2 <- item parts 2 ;;
    Ok ("   dim3 grid(   " ++ p0 ++ "end -" ++ p0 ++ "begin,"
        ++ p1 ++ "end -" ++ p1 ++ "begin); " ++ nl
        ++ "   dim3 threads(" ++ p2 ++ "end-" ++ p2 ++ "begin);" ++ nl ++ nl).

(** Lines 116-120: the kernel launch with the forwarded arguments. *)
Definition launch_call (kname : string) (parts : list string) (args : string)
  : string :=
  "   " ++ kname ++ "_kernel<<<grid,threads,0>>>(         " ++ nl
  ++ for_parts (fun p => "    " ++ p ++ "begin, " ++ p ++ "end,        " ++ nl) parts
  ++ "   " ++ find_argslist args ++ ");                   " ++ nl
  ++ "}                                                  " ++ nl ++ nl.

(** Lines 88-97: the [__global__] kernel. *)
Definition kernel_def (kname : string) (parts : list string) (args template : string)
  : result string :=
  binds <- bindings parts ;;
  Ok ("#include <ceed-impl.h>                             " ++ nl ++ nl
      ++ "__global__ void                                      " ++ nl
      ++ kname ++ "_kernel(                                      " ++ nl
      ++ signature parts args (")                                     " ++ nl)
      ++ "{                                                    " ++ nl
      ++ binds
      ++ template ++ "                            " ++ nl ++ nl).

(** Lines 100-120: the interface function calling the kernel. *)
Definition wrapper_def (kname : string) (parts : list string) (args : string)
  : result string :=
  geom <- geometry parts ;;
  Ok ("extern " ++ dq ++ "C" ++ dq ++ " void                                    " ++ nl
      ++ kname ++ "(                                             " ++ nl
      ++ signature parts args (")                                    " ++ nl)
      ++ "{                                                    " ++ nl
      ++ geom
      ++ launch_call kname parts args).

(** The text written to the .cu file for one template. *)
Definition kernel_text (kname : string) (parts : list string) (args template : string)
  : result string :=
  k <- kernel_def kname parts args template ;;
  w <- wrapper_def kname parts args ;;
  Ok (k ++ w).

(** The state threaded through the loop: the unread source [prog], the text
    written so far to the two output files, and (a log, not a variable of
    the program) the values taken by [kname], oldest first. *)
Record state : Type := mkState {
  prog : string;
  cfile : string;
  cufile : string;
  knames : list string
}.

(** The three slices taken from [prog] once the marker has been dropped
    (lines 50-59): bounds, args, template and the rest of the buffer. *)
Definition bounds_of (prog : string) : string :=
  Py.slice (Py.find "<<" prog + 2) (Py.find ">>" prog) prog.

Definition args_of (prog : string) : string :=
  Py.slice (Py.find "(" prog + 1) (Py.find ")" prog) prog.

Definition template_of (prog : string) : string :=
  let '(i1, i2) := find_matching prog "{" "}" in
  Py.slice (i1 + 1) i2 prog.

Definition rest_of (prog : string) : string :=
  let '(i1, i2) := find_matching prog "{" "}" in
  Py.slice_from i2 prog.

(** One iteration of [for kernel in range(...)] (lines 40-123). *)
Definition body (fname : string) (kernel : nat) (st : state) : state * option exn :=
  match Py.find_nat marker (prog st) with
  | None => (st, Some ValueError)                     (* prog.index *)
  | Some k =>
      let i1 := Z.of_nat k in
      let cfile1 := cfile st ++ Py.slice_to i1 (prog st) in
      let prog1 := Py.slice_from (i1 + 14) (prog st) in
      let bounds := bounds_of prog1 in
      let args := args_of prog1 in
      let template := template_of prog1 in
      let prog2 := rest_of prog1 in
      let '(boundvars, boundargs) := find_argsbound bounds in
      let boundargs := boundargs ++ "," ++ find_argslist args in
      let parts := Py.split "," boundvars in
      let kname := kname_of kernel fname in
      let kcall := kcall_of kname boundargs in
      let declaration := declaration_of kname parts args in
      let cfile2 := cfile1 ++ declaration ++ kcall in
      let names := (knames st ++ [kname])%list in
      match kernel_text kname parts args template with
      | Raise e => (mkState prog2 cfile2 (cufile st) names, Some e)
      | Ok kernel => (mkState prog2 cfile2 (cufile st ++ kernel) names, None)
      end
  end.

Fixpoint loop (fname : string) (kernels : list nat) (st : state)
  : state * option exn :=
  match kernels with
  | [] => (st, None)
  | k :: ks =>
      match body fname k st with
      | (st', None) => loop fname ks st'
      | (st', Some e) => (st', Some e)
      end
  end.

Definition init (source : string) : state := mkState source "" "" [].

(** Lines 39-127 on the text of the input file: the loop over
    [range(prog.count("magma_template"))], then the rest of the buffer. *)
Definition translate (fname : string) (source : string) : state * option exn :=
  match loop fname (seq 0 (Py.count marker source)) (init source) with
  | (st, None) =>
      (mkState (prog st) (cfile st ++ prog st) (cufile st) (knames st), None)
  | (st, Some e) => (st, Some e)
  end.

(** ** [main] with its command line, files and output channels *)

(** The file system as [main] meets it.  [read_text path] is what
    [open(path, 'r')] followed by [read()] gives: the text of the file as
    Python decodes it in text mode (line ends translated), or the
    exception that [open] or [read] raises.  [open_write path] is the
    exception that [open(path, 'w')] raises, if any.  [written] lists the
    files opened for writing, latest first, each with the path string
    given to [open] and the text passed to [write] on it; whether two
    path strings name the same file is not decided here. *)
Record filesystem : Type := mkFs {
  read_text : string -> result string;
  open_write : string -> option exn;
  written : list (string * string)
}.

Record world : Type := mkWorld {
  files : filesystem;
  stdout : string;
  stderr : string
}.

(** [path] has been opened for writing and [text] written to it. *)
Definition wrote (path text : string) (fs : filesystem) : filesystem :=
  mkFs (read_text fs) (open_write fs) ((path, text) :: written fs).

(** Lines 28-36: the stem used in the generated names. *)
Definition filestem (path : string) : string :=
  let fname := Py.slice_to (Py.find "." path) path in
  let fname := Py.replace "-" "_" fname in
  Py.slice_from (Py.rfind "/" fname + 1) fname.

(** What the interpreter prints for an exception nobody catches: of the
    traceback only the last line is kept. *)
Definition traceback (e : exn) : string :=
  match e with
  | ValueError => "ValueError: substring not found"
  | IndexError => "IndexError: list index out of range"
  | FileNotFoundError => "FileNotFoundError"
  | OSError => "OSError"
  | UnicodeDecodeError => "UnicodeDecodeError"
  end ++ nl.

(** [main()], as a function of [sys.argv] and the world; the second
    component is the exit status of the process.  The input is read and
    closed (lines 24-26) before the two output files are opened (lines
    30-31); when an exception ends the run, the files opened so far are
    listed with the text passed to [write] up to then. *)
Definition main (argv : list string) (w : world) : world * Z :=
  if negb (List.length argv =? 2)%nat then
    (mkWorld (files w)
             (stdout w ++ "usage: " ++ nth 0 argv "" ++ " <src.c>" ++ nl)
             (stderr w), 1)
  else
    let path := nth 1 argv "" in
    match read_text (files w) path with
    | Raise e => (mkWorld (files w) (stdout w) (stderr w ++ traceback e), 1)
    | Ok source =>
        let fname := Py.slice_to (Py.find "." path) path in
        let cname := fname ++ "_tmp.c" in
        let cuname := fname ++ "_cuda.cu" in
        match open_write (files w) cname with
        | Some e =>
            (mkWorld (files w) (stdout w) (stderr w ++ traceback e), 1)
        | None =>
            match open_write (files w) cuname with
            | Some e =>
                (mkWorld (wrote cname "" (files w)) (stdout w)
                         (stderr w ++ traceback e), 1)
            | None =>
                let out := stdout w ++ nth 0 argv "" ++ " " ++ path ++ " --> "
                           ++ cname ++ " " ++ cuname ++ nl in
                let '(st, e) := translate (filestem path) source in
                let fs := wrote cuname (cufile st)
                            (wrote cname (cfile st) (files w)) in
                match e with
                | None => (mkWorld fs out (stderr w), 0)
                | Some e => (mkWorld fs out (stderr w ++ traceback e), 1)
                end
            end
        end
    end.

(** ** Vocabulary of the statements *)

(** [c] occurs in [s] *)
Fixpoint has (c : ascii) (s : string) : bool :=
  match s with
  | EmptyString => false
  | String d s' => Ascii.eqb d c || has c s'
  end.

(** number of occurrences of the character [c] in [s] *)
Fixpoint cnt (c : ascii) (s : string) : nat :=
  match s with
  | EmptyString => O
  | String d s' => ((if Ascii.eqb d c then 1 else 0) + cnt c s')%nat
  end.

Fixpoint all_chars (f : ascii -> bool) (s : string) : bool :=
  match s with
  | EmptyString => true
  | String d s' => f d && all_chars f s'
  end.

(** number of positions of [s] at which [sub] starts *)
Fixpoint occ (sub s : string) : nat :=
  match s with
  | EmptyString => O
  | String _ s' => ((if Py.startswith sub s then 1 else 0) + occ sub s')%nat
  end.

(** A parameter declaration whose name follows a space, [*] or [&]:
    [d_type] is everything before that separator. *)
Record decl : Type := mkDecl {
  d_type : string;
  d_sep : ascii;
  d_name : string
}.

Definition render_decl (d : decl) : string :=
  d_type d ++ String (d_sep d) (d_name d).

Definition render (ds : list decl) : string :=
  String.concat "," (map render_decl ds).

(** letters, digits and the underscore *)
Definition is_ident_char (c : ascii) : bool :=
  let n := nat_of_ascii c in
  ((65 <=? n) && (n <=? 90) || (97 <=? n) && (n <=? 122)
   || (48 <=? n) && (n <=? 57) || (n =? 95))%nat.

Definition no_delim (c : ascii) : bool :=
  negb (Ascii.eqb c ",") && negb (Ascii.eqb c ")").

(** a character that neither ends a name nor an entry *)
Definition name_char (c : ascii) : bool := negb (is_sep c) && no_delim c.

(** the names of [ds], each behind a comma: what the outer loop of
    [find_argslist] accumulates *)
Definition names_acc (ds : list decl) : string :=
  String.concat "" (map (fun d => "," ++ d_name d) ds).

Definition wf_decl (d : decl) : bool :=
  negb (String.eqb (d_type d) "") && all_chars no_delim (d_type d)
  && is_sep (d_sep d) && all_chars is_ident_char (d_name d).

(** The bare identifier of an entry in the words of the specification:
    its longest trailing run of identifier characters. *)
Fixpoint trailing_ident (entry : string) : string :=
  match entry with
  | EmptyString => EmptyString
  | String c s' =>
      let r := trailing_ident s' in
      if (String.length r =? String.length s')%nat && is_ident_char c
      then String c r else r
  end.

(** The argument list in the words of the specification: the text between
    the first [(] after the bounds clause and its matching [)]. *)
Definition spec_args (prog : string) : string :=
  let after := Py.slice_from (Py.find ">>" prog + 2) prog in
  let '(i1, i2) := find_matching after "(" ")" in
  Py.slice (i1 + 1) (i2 - 1) after.

(** The span of an invocation that the scanner drops behind the marker:
    [q] is the buffer just after a marker. *)
Definition consumed_span (q : string) : string :=
  let '(i1, i2) := find_matching q "{" "}" in Py.slice_to i2 q.

(** The marker occurs inside the span consumed by the next iteration. *)
Definition marker_in_span (p : string) : bool :=
  match Py.find_nat marker p with
  | None => false
  | Some k =>
      negb (Py.find marker
              (consumed_span (Py.slice_from (Z.of_nat k + 14) p)) =? -1)
  end.

Definition tab : string := String (ascii_of_nat 9) EmptyString.

(** A source text with two invocations, of one and of two dimensions. *)
Definition two_templates : string :=
  "void f(int n, double *u) {" ++ nl
  ++ "  magma_template<<e=0:n>>(double *u){ u[e]=0; }" ++ nl
  ++ "  magma_template<<e=0:n, d=0:3>>(double *u){ u[3*e+d]=1; }" ++ nl
  ++ "}" ++ nl.

(** A source text whose first body holds the marker. *)
Definition marker_in_body : string :=
  "magma_template<<e=0:n>>(double *u){ /* magma_template */ u[e]=0; }".

(** One clause [name=start:end] of a bounds list. *)
Record dimension : Type := mkDim {
  dm_name : string;
  dm_start : string;
  dm_end : string
}.

Definition render_dim (d : dimension) : string :=
  dm_name d ++ "=" ++ dm_start d ++ ":" ++ dm_end d.

Definition render_bounds (ds : list dimension) : string :=
  String.concat "," (map render_dim ds).

(** a character that may stand in a name or a start expression *)
Definition bound_char (c : ascii) : bool :=
  negb (Ascii.eqb c "=") && negb (Ascii.eqb c ":") && negb (Ascii.eqb c ",").

(** a character that may stand in an end expression *)
Definition end_char (c : ascii) : bool :=
  negb (Ascii.eqb c "=") && negb (Ascii.eqb c ",").

Definition wf_dim (d : dimension) : bool :=
  all_chars bound_char (dm_name d) && all_chars bound_char (dm_start d)
  && all_chars end_char (dm_end d).

(** the start and end expressions of [ds], in order *)
Definition bound_exprs (ds : list dimension) : list string :=
  flat_map (fun d => [dm_start d; dm_end d]) ds.

(** The invocations of a text in the order of the text, at most [n] of
    them: each is met at the first marker of what is left, and consists
    of the text before that marker and of the buffer behind it; the
    search goes on behind the span which the invocation takes from that
    buffer. *)
Fixpoint invocations (n : nat) (p : string) : list (string * string) :=
  match n with
  | O => []
  | S n' =>
      match Py.find_nat marker p with
      | None => []
      | Some i =>
          let q := Py.slice_from (Z.of_nat i + 14) p in
          (Py.slice_to (Z.of_nat i) p, q) :: invocations n' (rest_of q)
      end
  end.

(** the dimension names of the invocation that begins the buffer [q] *)
Definition parts_of (q : string) : list string :=
  Py.split "," (fst (find_argsbound (bounds_of q))).

(** the declaration and the call generated under the name [kname] for
    the invocation that begins the buffer [q] *)
Definition host_fragment (kname q : string) : string :=
  declaration_of kname (parts_of q) (args_of q)
  ++ kcall_of kname
       (snd (find_argsbound (bounds_of q)) ++ "," ++ find_argslist (args_of q)).

(** the kernel and the interface function generated under [kname] *)
Definition kernel_fragment (kname q : string) : result string :=
  kernel_text kname (parts_of q) (args_of q) (template_of q).

(** The host text for a list of invocations numbered from [k]: each
    copied text, then the fragment under the name of its ordinal. *)
Fixpoint host_text (fname : string) (k : nat) (l : list (string * string))
  : string :=
  match l with
  | [] => ""
  | (pass, q) :: l' =>
      pass ++ host_fragment (kname_of k fname) q ++ host_text fname (S k) l'
  end.

(** The kernel text for a list of invocations numbered from [k]. *)
Fixpoint cu_text (fname : string) (k : nat) (l : list (string * string))
  : result string :=
  match l with
  | [] => Ok ""
  | (pass, q) :: l' =>
      t <- kernel_fragment (kname_of k fname) q ;;
      ts <- cu_text fname (S k) l' ;;
      Ok (t ++ ts)
  end.

(** The stretch of source that a list of invocations covers: each copied
    text, the marker, and the span taken behind it. *)
Fixpoint source_text (l : list (string * string)) : string :=
  match l with
  | [] => ""
  | (pass, q) :: l' => pass ++ marker ++ consumed_span q ++ source_text l'
  end.

(** the number of dimension names of the next invocation of [p] *)
Definition dims_at (p : string) : nat :=
  match Py.find_nat marker p with
  | None => O
  | Some i => List.length (parts_of (Py.slice_from (Z.of_nat i + 14) p))
  end.

(** A source text whose first body holds the marker and whose second
    invocation has four dimensions. *)
Definition marker_then_four : string :=
  "magma_template<<e=0:n>>(double *u){ /* magma_template */ u[e]=0; }"
  ++ "magma_template<<a=0:1,b=0:1,c=0:1,d=0:1>>(double *u){ u[a]=b; }".

(** A file system with one readable file, [a.c], in which every file
    can be opened for writing and none has been yet. *)
Definition one_file : filesystem :=
  mkFs (fun path => if String.eqb path "a.c" then Ok "int x;"
                    else Raise FileNotFoundError)
       (fun _ => None) [].

(** ** Facts about the string primitives *)

Section StringFacts.

Lemma app_nil_r (s : string) : s ++ "" = s.
Proof. induction s; simpl; congruence. Qed.

Lemma app_assoc (a b c : string) : (a ++ b) ++ c = a ++ b ++ c.
Proof. induction a; simpl; congruence. Qed.

Lemma length_app (a b : string) :
  String.length (a ++ b) = (String.length a + String.length b)%nat.
Proof. induction a; simpl; congruence. Qed.

Lemma len_app (a b : string) : Py.len (a ++ b) = Py.len a + Py.len b.
Proof. unfold Py.len. rewrite length_app. lia. Qed.

Lemma len_nonneg (s : string) : 0 <= Py.len s.
Proof. unfold Py.len. lia. Qed.

Lemma take_app (a b : string) : Py.take (String.length a) (a ++ b) = a.
Proof. induction a; simpl; [destruct b; reflexivity | congruence]. Qed.

Lemma drop_app (a b : string) : Py.drop (String.length a) (a ++ b) = b.
Proof. induction a; simpl; [destruct b; reflexivity | assumption]. Qed.

Lemma take_drop (n : nat) (s : string) : Py.take n s ++ Py.drop n s = s.
Proof.
  revert s; induction n as [|n IH]; intros [|c s]; simpl; try reflexivity.
  now rewrite IH.
Qed.

Lemma drop_drop (n m : nat) (s : string) :
  Py.drop n (Py.drop m s) = Py.drop (m + n) s.
Proof.
  revert s; induction m as [|m IH]; intros s; simpl.
  - reflexivity.
  - destruct s; [destruct n; reflexivity | apply IH].
Qed.

Lemma clamp_inside (i n : Z) : 0 <= i <= n -> Py.clamp i n = i.
Proof. intros H. unfold Py.clamp. destruct (Z.ltb_spec i 0); lia. Qed.

(** [(a ++ b ++ c)[len a : len a + len b] = b] *)
Lemma slice_middle (a b c : string) :
  Py.slice (Py.len a) (Py.len a + Py.len b) (a ++ b ++ c) = b.
Proof.
  unfold Py.slice.
  pose proof (len_nonneg a); pose proof (len_nonneg b); pose proof (len_nonneg c).
  rewrite !clamp_inside by (rewrite !len_app; lia).
  replace (Py.len a + Py.len b - Py.len a) with (Py.len b) by lia.
  unfold Py.len. rewrite !Nat2Z.id, drop_app. apply take_app.
Qed.

Lemma slice_from_app (a b : string) : Py.slice_from (Py.len a) (a ++ b) = b.
Proof.
  unfold Py.slice_from. pose proof (len_nonneg a); pose proof (len_nonneg b).
  rewrite clamp_inside by (rewrite len_app; lia).
  unfold Py.len. rewrite Nat2Z.id. apply drop_app.
Qed.

Lemma slice_to_app (a b : string) : Py.slice_to (Py.len a) (a ++ b) = a.
Proof.
  unfold Py.slice_to. pose proof (len_nonneg a); pose proof (len_nonneg b).
  rewrite clamp_inside by (rewrite len_app; lia).
  unfold Py.len. rewrite Nat2Z.id. apply take_app.
Qed.

Lemma startswith_app (p t : string) : Py.startswith p (p ++ t) = true.
Proof.
  induction p as [|c p IH]; simpl; [reflexivity|].
  now rewrite Ascii.eqb_refl, IH.
Qed.

Lemma startswith_inv (p s : string) :
  Py.startswith p s = true -> exists t, s = p ++ t.
Proof.
  revert s; induction p as [|c p IH]; intros s H; simpl in *.
  - now exists s.
  - destruct s as [|d s]; [discriminate|].
    apply andb_true_iff in H as [Hc Hp]. apply Ascii.eqb_eq in Hc. subst d.
    destruct (IH _ Hp) as [t ->]. now exists t.
Qed.

Lemma startswith_weaken (p a b : string) :
  Py.startswith p a = true -> Py.startswith p (a ++ b) = true.
Proof.
  intros H. destruct (startswith_inv _ _ H) as [t ->].
  rewrite app_assoc. apply startswith_app.
Qed.

End StringFacts.

Section CharFacts.

Variable c : ascii.

Lemma has_app (a b : string) : has c (a ++ b) = has c a || has c b.
Proof. induction a; simpl; [reflexivity|]. now rewrite IHa, orb_assoc. Qed.

Lemma startswith_char (s : string) :
  Py.startswith (String c "") s = match s with
                                  | String d _ => Ascii.eqb c d
                                  | EmptyString => false
                                  end.
Proof. destruct s; simpl; [reflexivity|]. apply andb_true_r. Qed.

Lemma find_nat_char_app (pre t : string) :
  has c pre = false ->
  Py.find_nat (String c "") (pre ++ String c t) = Some (String.length pre).
Proof.
  induction pre as [|d pre IH]; intros H.
  - cbn [append Py.find_nat]. rewrite startswith_char, Ascii.eqb_refl. reflexivity.
  - simpl in H. apply orb_false_iff in H as [Hd Hp].
    cbn [append Py.find_nat]. rewrite startswith_char.
    rewrite Ascii.eqb_sym, Hd. rewrite (IH Hp). reflexivity.
Qed.

Lemma find_nat_char_none (s : string) :
  has c s = false -> Py.find_nat (String c "") s = None.
Proof.
  induction s as [|d s IH]; intros H; [reflexivity|].
  simpl in H. apply orb_false_iff in H as [Hd Hs].
  cbn [Py.find_nat]. rewrite startswith_char, Ascii.eqb_sym, Hd, (IH Hs).
  reflexivity.
Qed.

Lemma find_char_app (pre t : string) :
  has c pre = false -> Py.find (String c "") (pre ++ String c t) = Py.len pre.
Proof. intros H. unfold Py.find. now rewrite find_nat_char_app. Qed.

Lemma find_char_none (s : string) :
  has c s = false -> Py.find (String c "") s = -1.
Proof. intros H. unfold Py.find. now rewrite find_nat_char_none. Qed.

Lemma count_char (s : string) : Py.count (String c "") s = cnt c s.
Proof.
  unfold Py.count. induction s as [|d s IH]; [reflexivity|].
  cbn [Py.count_skip cnt String.length Nat.pred].
  rewrite startswith_char, Ascii.eqb_sym. destruct (Ascii.eqb d c); simpl; lia.
Qed.

Lemma cnt_app (a b : string) : cnt c (a ++ b) = (cnt c a + cnt c b)%nat.
Proof. induction a; simpl; lia. Qed.

Lemma cnt_has (s : string) : has c s = false -> cnt c s = 0%nat.
Proof.
  induction s as [|d s IH]; simpl; [reflexivity|].
  intros H. apply orb_false_iff in H as [-> Hs]. now rewrite IH.
Qed.

End CharFacts.

Lemma find_nat_lt (sub s : string) (k : nat) :
  sub <> "" -> Py.find_nat sub s = Some k -> (k < String.length s)%nat.
Proof.
  intros Hsub. revert k; induction s as [|d s IH]; intros k H.
  - destruct sub; [congruence | discriminate].
  - cbn [Py.find_nat] in H. destruct (Py.startswith sub (String d s)).
    + injection H as <-. simpl. lia.
    + destruct (Py.find_nat sub s) as [j|]; [|discriminate].
      injection H as <-. specialize (IH j eq_refl). simpl. lia.
Qed.

(** [find] splits the text at the first occurrence. *)
Lemma find_nat_split (sub s : string) (k : nat) :
  Py.find_nat sub s = Some k ->
  exists t, s = Py.take k s ++ sub ++ t /\ String.length (Py.take k s) = k
            /\ Py.drop k s = sub ++ t.
Proof.
  revert k; induction s as [|d s IH]; intros k H.
  - cbn [Py.find_nat] in H. destruct (Py.startswith sub "") eqn:E; [|discriminate].
    injection H as <-. destruct (startswith_inv _ _ E) as [t Ht].
    exists t. simpl. auto.
  - cbn [Py.find_nat] in H. destruct (Py.startswith sub (String d s)) eqn:E.
    + injection H as <-. destruct (startswith_inv _ _ E) as [t Ht].
      exists t. simpl. auto.
    + destruct (Py.find_nat sub s) as [j|]; [|discriminate].
      injection H as <-. destruct (IH j eq_refl) as (t & H1 & H2 & H3).
      exists t. simpl. rewrite H2. split; [congruence | auto].
Qed.

(** ** The bracket matcher *)

(** The nesting counter after a prefix is the opening count minus the
    closing count; the scan gives up only if it never comes back to zero. *)
Lemma match_scan_none (left right : ascii) (s : string) :
  left <> right ->
  forall (i num : Z),
    (forall k, (1 <= k <= String.length s)%nat ->
       num + Z.of_nat (cnt left (Py.take k s))
         <> Z.of_nat (cnt right (Py.take k s))) ->
    match_scan left right s i num = None.
Proof.
  intros Hlr. induction s as [|c s IH]; intros i num H; [reflexivity|].
  cbn [match_scan].
  assert (H1 := H 1%nat ltac:(simpl; lia)).
  assert (Hs : forall k, (1 <= k <= String.length s)%nat ->
      (if Ascii.eqb c right then num - 1
       else if Ascii.eqb c left then num + 1 else num)
      + Z.of_nat (cnt left (Py.take k s)) <> Z.of_nat (cnt right (Py.take k s))).
  { intros k Hk. specialize (H (S k) ltac:(simpl; lia)).
    cbn [Py.take cnt] in H.
    destruct (Ascii.eqb_spec c right) as [->|Hr].
    - destruct (Ascii.eqb_spec right left); [congruence | lia].
    - destruct (Ascii.eqb_spec c left); lia. }
  cbn [Py.take cnt] in H1.
  replace (Py.take 0 s) with "" in H1 by (destruct s; reflexivity).
  cbn [cnt] in H1.
  destruct (Ascii.eqb_spec c right) as [->|Hr].
  - destruct (Ascii.eqb_spec right left) as [E|_]; [congruence|].
    destruct (Z.eqb_spec (num - 1) 0); [lia | now apply IH].
  - destruct (Ascii.eqb_spec c left).
    + destruct (Z.eqb_spec (num + 1) 0); [lia | now apply IH].
    + destruct (Z.eqb_spec num 0); [lia | now apply IH].
Qed.

(** C8: when no closing delimiter balances the first opening delimiter
    (after every prefix of the text behind it, the closing delimiters seen
    are not one more than the opening ones), the bracket matcher signals
    nothing and returns the span from that opening delimiter to the end of
    the buffer: its end index is the buffer length. *)
Theorem find_matching_unbalanced (left right : ascii) (pre rest : string) :
  left <> right ->
  has left pre = false ->
  (forall k, (1 <= k <= String.length rest)%nat ->
     cnt right (Py.take k rest) <> S (cnt left (Py.take k rest))) ->
  find_matching (pre ++ String left rest) left right
  = (Py.len pre, Py.len (pre ++ String left rest)).
Proof.
  intros Hlr Hpre Hbal. unfold find_matching.
  rewrite (find_char_app left pre rest Hpre).
  replace (pre ++ String left rest) with ((pre ++ String left "") ++ rest)
    by (rewrite app_assoc; reflexivity).
  replace (Py.len pre + 1) with (Py.len (pre ++ String left ""))
    by (rewrite len_app; reflexivity).
  rewrite slice_from_app, match_scan_none; [reflexivity | assumption |].
  intros k Hk. specialize (Hbal k Hk). lia.
Qed.

Lemma find_matching_unbalanced_witness :
  find_matching "f(x){ if (y) { g(); }" "{" "}" = (4, 21).
Proof.
  apply (find_matching_unbalanced "{" "}" "f(x)" " if (y) { g(); }").
  - discriminate.
  - reflexivity.
  - intros k Hk. simpl in Hk.
    do 17 (destruct k as [|k]; [simpl; lia|]). lia.
Defined.

(** ** The code emitter *)

(** Brings both sides of an equation between concatenations to the same
    right-nested form. *)
Ltac norm_app :=
  repeat first [ rewrite !app_assoc | rewrite app_nil_r | progress cbn [append] ].

(** C4: the launch geometry by dimension count.  One dimension: the
    trivial grid [(1, 1)] and a thread count from the only begin/end pair;
    two dimensions: one grid axis from dimension 0 and the thread count
    from dimension 1; three dimensions: two grid axes from dimensions 0
    and 1 and the thread count from dimension 2; every extent is end
    minus begin, and the interface function carries exactly this text
    between its opening brace and the kernel launch. *)
Theorem geometry_by_dimension_count (kname args p0 p1 p2 : string) :
  let head parts :=
    "extern " ++ dq ++ "C" ++ dq ++ " void                                    " ++ nl
    ++ kname ++ "(                                             " ++ nl
    ++ signature parts args (")                                    " ++ nl)
    ++ "{                                                    " ++ nl in
  let g1 :=
    "   dim3 grid(1, 1);                                   " ++ nl
    ++ "   dim3 threads(" ++ p0 ++ "end-" ++ p0 ++ "begin);" ++ nl ++ nl in
  let g2 :=
    "   dim3 grid(   " ++ p0 ++ "end -" ++ p0 ++ "begin);  " ++ nl
    ++ "   dim3 threads(" ++ p1 ++ "end-" ++ p1 ++ "begin);" ++ nl ++ nl in
  let g3 :=
    "   dim3 grid(   " ++ p0 ++ "end -" ++ p0 ++ "begin,"
    ++ p1 ++ "end -" ++ p1 ++ "begin); " ++ nl
    ++ "   dim3 threads(" ++ p2 ++ "end-" ++ p2 ++ "begin);" ++ nl ++ nl in
  (geometry [p0] = Ok g1
   /\ wrapper_def kname [p0] args
      = Ok (head [p0] ++ g1 ++ launch_call kname [p0] args))
  /\ (geometry [p0; p1] = Ok g2
      /\ wrapper_def kname [p0; p1] args
         = Ok (head [p0; p1] ++ g2 ++ launch_call kname [p0; p1] args))
  /\ (geometry [p0; p1; p2] = Ok g3
      /\ wrapper_def kname [p0; p1; p2] args
         = Ok (head [p0; p1; p2] ++ g3 ++ launch_call kname [p0; p1; p2] args)).
Proof.
  cbv zeta. unfold wrapper_def, geometry.
  cbn [List.length Nat.eqb item nth_error bind].
  repeat split; f_equal; norm_app; reflexivity.
Qed.

(** C1, as the code has it: with two dimensions the second index variable
    is bound from [blockIdx.y], not from the thread index; the adjustment
    made for two dimensions (line 85) assigns [partsinit[2]] to itself. *)
Theorem two_dimensions_bind_second_from_blockIdx_y (p0 p1 : string) :
  partsinit_of 2 = ["blockIdx.x"; "blockIdx.y"; "threadIdx.x"]
  /\ Py.split "," (fst (find_argsbound "e=0:n, d=0:3")) = ["e"; " d"]
  /\ bindings [p0; p1]
     = Ok ("   int " ++ p0 ++ " = " ++ "blockIdx.x" ++ ";      " ++ nl
           ++ "   int " ++ p1 ++ " = " ++ "blockIdx.y" ++ ";      " ++ nl).
Proof.
  split; [reflexivity|]. split; [reflexivity|].
  unfold bindings, bindings_from, partsinit_of.
  cbn [List.length Nat.eqb item nth_error bind setitem nth].
  f_equal; norm_app; reflexivity.
Qed.

(** ** The command line *)

(** C9, as the code has it: with any number of command-line arguments
    other than one, [main] prints the usage line on standard output,
    leaves the error channel and every file untouched, and exits with
    status 1. *)
Theorem usage_on_wrong_argument_count (argv : list string) (w : world) :
  List.length argv <> 2%nat ->
  main argv w
  = (mkWorld (files w)
             (stdout w ++ "usage: " ++ nth 0 argv "" ++ " <src.c>" ++ nl)
             (stderr w), 1).
Proof.
  intros H. unfold main.
  destruct (Nat.eqb_spec (List.length argv) 2); [contradiction | reflexivity].
Qed.

Lemma usage_on_wrong_argument_count_witness :
  main ["gccm.py"; "a.c"; "b.c"] (mkWorld one_file "" "")
  = (mkWorld one_file ("usage: gccm.py <src.c>" ++ nl) "", 1).
Proof.
  apply (usage_on_wrong_argument_count
           ["gccm.py"; "a.c"; "b.c"] (mkWorld one_file "" "")).
  simpl. lia.
Defined.

(** C9 as stated fails: run without a positional argument, the program
    writes nothing to the error channel; the usage line is on standard
    output. *)
Lemma usage_is_not_on_the_error_channel :
  stderr (fst (main ["gccm.py"] (mkWorld one_file "" ""))) = ""
  /\ stdout (fst (main ["gccm.py"] (mkWorld one_file "" "")))
     = "usage: gccm.py <src.c>" ++ nl.
Proof. split; reflexivity. Qed.

(** ** The bounds parser *)

Lemma count_skip_char_none (c : ascii) (s : string) :
  has c s = false -> Py.count (String c "") s = 0%nat.
Proof. intros H. rewrite count_char. now apply cnt_has. Qed.

(** C2, as the code has it: on a bounds text without [=] the bounds
    parser signals nothing and returns an empty list of names and an empty
    list of bounds. *)
Theorem find_argsbound_without_equals (bounds : string) :
  has "=" bounds = false -> find_argsbound bounds = ("", "").
Proof.
  intros H. unfold find_argsbound.
  rewrite count_skip_char_none; [reflexivity|].
  rewrite has_app, H. reflexivity.
Qed.

Lemma find_argsbound_without_equals_witness :
  find_argsbound "e0:r->nelem" = ("", "").
Proof. apply (find_argsbound_without_equals "e0:r->nelem"). reflexivity. Defined.

(** C2 as stated fails: the clause [e0:r->nelem] has no [=], the parser
    returns normally, and so does the whole translation of a source with
    that bounds clause; a clause without [:] is accepted as well. *)
Lemma malformed_bounds_are_accepted :
  find_argsbound "e0:r->nelem" = ("", "")
  /\ find_argsbound "e=5" = ("e", "5,e=5")
  /\ snd (translate "src"
            "magma_template<<e0:r->nelem>>(double *u){ u[0]=1; }") = None.
Proof. repeat split; reflexivity. Qed.

(** ** The argument span *)

(** C3, as the code has it: the argument text is what stands between the
    first [(] and the first [)] of the buffer behind the marker; when
    neither parenthesis occurs before the argument list and no [)] occurs
    inside it, that is the argument list. *)
Theorem args_of_plain (pre a post : string) :
  has "(" pre = false -> has ")" pre = false -> has ")" a = false ->
  args_of (pre ++ "(" ++ a ++ ")" ++ post) = a.
Proof.
  intros H1 H2 H3. unfold args_of.
  change (pre ++ "(" ++ a ++ ")" ++ post)
    with (pre ++ String "(" (a ++ String ")" post)).
  rewrite (find_char_app "(" pre _ H1).
  replace (Py.find ")" (pre ++ String "(" (a ++ String ")" post)))
    with (Py.len (pre ++ "(") + Py.len a).
  - replace (Py.len pre + 1) with (Py.len (pre ++ "("))
      by (rewrite len_app; reflexivity).
    replace (pre ++ String "(" (a ++ String ")" post))
      with ((pre ++ "(") ++ a ++ String ")" post)
      by (rewrite app_assoc; reflexivity).
    apply slice_middle.
  - replace (pre ++ String "(" (a ++ String ")" post))
      with ((pre ++ "(" ++ a) ++ String ")" post)
      by (rewrite !app_assoc; reflexivity).
    rewrite find_char_app.
    + rewrite !len_app. lia.
    + rewrite !has_app, H2, H3. reflexivity.
Qed.

Lemma args_of_plain_witness :
  args_of "<<e=0:r->nelem>>(const Scalar *uu, Scalar *vv){ vv[e]=uu[e]; }"
  = "const Scalar *uu, Scalar *vv".
Proof.
  apply (args_of_plain "<<e=0:r->nelem>>" "const Scalar *uu, Scalar *vv"
           "{ vv[e]=uu[e]; }"); reflexivity.
Defined.

(** C3 as stated fails: a [(] inside a bounds expression, or a
    parenthesis nested in the argument list, changes the captured span. *)
Lemma args_span_is_not_nesting_aware :
  (args_of "<<e=0:f(n)>>(double *u){ }" = "n"
   /\ spec_args "<<e=0:f(n)>>(double *u){ }" = "double *u")
  /\ (args_of "<<e=0:n>>(void (*f)(int), int n){ }" = "void (*f"
      /\ spec_args "<<e=0:n>>(void (*f)(int), int n){ }"
         = "void (*f)(int), int n").
Proof. repeat split; reflexivity. Qed.

(** ** The argument-list parser *)

Lemma get_none_ge (s : string) (n : nat) :
  (String.length s <= n)%nat -> String.get n s = None.
Proof.
  revert n; induction s as [|c s IH]; intros n H; [reflexivity|].
  destruct n as [|n]; simpl in *; [lia | apply IH; lia].
Qed.

Lemma getitem_nat (s : string) (n : nat) :
  Py.getitem (Z.of_nat n) s = String.get n s.
Proof.
  unfold Py.getitem, Py.len.
  assert (E : (Z.of_nat n <? 0) = false) by (apply Z.ltb_ge; lia).
  rewrite E. cbv zeta. rewrite E. cbn [orb].
  destruct (Z.leb_spec (Z.of_nat (String.length s)) (Z.of_nat n)).
  - symmetry. apply get_none_ge. lia.
  - now rewrite Nat2Z.id.
Qed.

Lemma get_all_chars (f : ascii -> bool) (s : string) (n : nat) (c : ascii) :
  all_chars f s = true -> String.get n s = Some c -> f c = true.
Proof.
  revert n; induction s as [|d s IH]; intros n Ha Hg; [discriminate|].
  simpl in Ha. apply andb_true_iff in Ha as [Hd Hs].
  destruct n as [|n]; simpl in Hg; [congruence | eauto].
Qed.

Lemma get_behind (a x : string) (c : ascii) (m : nat) :
  String.get (String.length a + S m) (a ++ String c x) = String.get m x.
Proof.
  rewrite Nat.add_comm, <- append_correct2. reflexivity.
Qed.

Lemma get_at (a x : string) (c : ascii) :
  String.get (String.length a) (a ++ String c x) = Some c.
Proof.
  change (String.length a) with (0 + String.length a)%nat.
  rewrite <- append_correct2. reflexivity.
Qed.

Lemma find_seq_first {A : Type} (f : A -> bool) (g : nat -> A) :
  forall (n start k : nat),
    (start <= k < start + n)%nat ->
    f (g k) = true ->
    (forall j, (start <= j < k)%nat -> f (g j) = false) ->
    List.find f (map g (seq start n)) = Some (g k).
Proof.
  induction n as [|n IH]; intros start k Hk Hf Hlt; [lia|].
  cbn [seq map List.find].
  destruct (Nat.eq_dec k start) as [->|Hne].
  - now rewrite Hf.
  - rewrite (Hlt start) by lia. apply IH; [lia | assumption |].
    intros j Hj. apply Hlt. lia.
Qed.

Lemma all_chars_app (f : ascii -> bool) (a b : string) :
  all_chars f (a ++ b) = all_chars f a && all_chars f b.
Proof. induction a; simpl; [reflexivity|]. now rewrite IHa, andb_assoc. Qed.

Lemma all_chars_impl (f g : ascii -> bool) (s : string) :
  (forall c, f c = true -> g c = true) ->
  all_chars f s = true -> all_chars g s = true.
Proof.
  intros Hfg. induction s as [|c s IH]; simpl; [reflexivity|].
  intros H. apply andb_true_iff in H as [Hc Hs].
  now rewrite (Hfg _ Hc), IH.
Qed.

Lemma no_delim_has (s : string) :
  all_chars no_delim s = true -> has "," s = false /\ has ")" s = false.
Proof.
  induction s as [|c s IH]; simpl; [auto|].
  intros H. apply andb_true_iff in H as [Hc Hs]. destruct (IH Hs) as [-> ->].
  unfold no_delim in Hc. apply andb_true_iff in Hc as [H1 H2].
  apply negb_true_iff in H1, H2. now rewrite H1, H2.
Qed.

Lemma is_sep_no_delim (c : ascii) : is_sep c = true -> no_delim c = true.
Proof.
  unfold is_sep, no_delim. intros H.
  apply orb_true_iff in H as [H|H]; [apply orb_true_iff in H as [H|H]|];
    apply Ascii.eqb_eq in H; subst c; reflexivity.
Qed.

Lemma ident_no_delim (c : ascii) : is_ident_char c = true -> no_delim c = true.
Proof.
  destruct c as [[] [] [] [] [] [] [] []]; intros H;
    first [ reflexivity | discriminate H ].
Qed.

Lemma ident_not_sep (c : ascii) : is_ident_char c = true -> is_sep c = false.
Proof.
  destruct c as [[] [] [] [] [] [] [] []]; intros H;
    first [ reflexivity | discriminate H ].
Qed.

Lemma sep_at_nat (args : string) (n : nat) :
  sep_at args (Z.of_nat n)
  = match String.get n args with Some c => is_sep c | None => false end.
Proof. unfold sep_at. now rewrite getitem_nat. Qed.

Lemma length_nonempty (s : string) : s <> "" -> (1 <= String.length s)%nat.
Proof. destruct s; [congruence | simpl; lia]. Qed.

(** The inner loop of [find_argslist] on an entry [ty ++ sep ++ name]
    followed by its delimiter: it passes the delimiter and the name and
    stops on [sep]. *)
Lemma inner_scan (ty name rest : string) (sep delim : ascii) :
  ty <> "" -> is_sep sep = true -> is_sep delim = false ->
  all_chars (fun c => negb (is_sep c)) name = true ->
  List.find
    (fun j => sep_at (ty ++ String sep (name ++ String delim rest))
                (Py.len (ty ++ String sep name) - j))
    (Py.range (Py.len (ty ++ String sep name)))
  = Some (Py.len name + 1).
Proof.
  intros Hty Hsep Hdelim Hname.
  pose proof (length_nonempty ty Hty) as Hlen.
  unfold Py.range, Py.len. rewrite Nat2Z.id, length_app. cbn [String.length].
  replace (Z.of_nat (String.length name) + 1)
    with (Z.of_nat (S (String.length name))) by lia.
  apply (find_seq_first _ Z.of_nat); [lia | |].
  - replace (Z.of_nat (String.length ty + S (String.length name))
             - Z.of_nat (S (String.length name)))
      with (Z.of_nat (String.length ty)) by lia.
    now rewrite sep_at_nat, get_at.
  - intros j Hj.
    replace (Z.of_nat (String.length ty + S (String.length name)) - Z.of_nat j)
      with (Z.of_nat (String.length ty + S (String.length name - j))) by lia.
    rewrite sep_at_nat, get_behind.
    destruct j as [|j].
    + rewrite Nat.sub_0_r, get_at. assumption.
    + rewrite <- append_correct1 by lia.
      destruct (String.get (String.length name - S j) name) as [c|] eqn:E;
        [|reflexivity].
      apply negb_true_iff.
      exact (get_all_chars _ _ _ _ Hname E).
Qed.

(** One pass of the outer loop on a well-formed entry followed by a comma,
    or by the closing parenthesis that ends the list. *)
Lemma argslist_step_entry (ty name rest acc : string) (sep delim : ascii) :
  ty <> "" -> all_chars no_delim ty = true -> is_sep sep = true ->
  all_chars name_char name = true ->
  delim = ","%char \/ (delim = ")"%char /\ has "," rest = false) ->
  argslist_step (ty ++ String sep (name ++ String delim rest), acc)
  = (rest, acc ++ "," ++ name).
Proof.
  intros Hty Htyc Hsep Hname Hdelim.
  assert (Hn1 : all_chars (fun c => negb (is_sep c)) name = true).
  { revert Hname. apply all_chars_impl. unfold name_char. intros c H.
    now apply andb_true_iff in H. }
  assert (Hn2 : all_chars no_delim name = true).
  { revert Hname. apply all_chars_impl. unfold name_char. intros c H.
    now apply andb_true_iff in H. }
  assert (Hentry : all_chars no_delim (ty ++ String sep name) = true).
  { rewrite all_chars_app. cbn [all_chars].
    now rewrite Htyc, (is_sep_no_delim _ Hsep), Hn2. }
  destruct (no_delim_has _ Hentry) as [Hc Hp].
  assert (Hsplit : ty ++ String sep (name ++ String delim rest)
                   = (ty ++ String sep name) ++ String delim rest).
  { rewrite app_assoc. reflexivity. }
  assert (Hi1 : (if Py.find "," (ty ++ String sep (name ++ String delim rest)) =? -1
                 then Py.find ")" (ty ++ String sep (name ++ String delim rest))
                 else Py.find "," (ty ++ String sep (name ++ String delim rest)))
                = Py.len (ty ++ String sep name)).
  { rewrite Hsplit. pose proof (len_nonneg (ty ++ String sep name)).
    destruct Hdelim as [->|[-> Hrest]].
    - rewrite (find_char_app "," _ rest Hc).
      destruct (Z.eqb_spec (Py.len (ty ++ String sep name)) (-1)); [lia|reflexivity].
    - rewrite (find_char_none ","), (find_char_app ")" _ rest Hp); [reflexivity|].
      rewrite has_app, Hc. cbn [has orb]. exact Hrest. }
  assert (Hd : is_sep delim = false).
  { destruct Hdelim as [->|[-> _]]; reflexivity. }
  unfold argslist_step. rewrite Hi1.
  rewrite (inner_scan ty name rest sep delim Hty Hsep Hd Hn1).
  f_equal.
  - rewrite Hsplit.
    replace (Py.len (ty ++ String sep name) + 1)
      with (Py.len ((ty ++ String sep name) ++ String delim ""))
      by (rewrite !len_app; reflexivity).
    replace ((ty ++ String sep name) ++ String delim rest)
      with (((ty ++ String sep name) ++ String delim "") ++ rest)
      by (rewrite !app_assoc; reflexivity).
    apply slice_from_app.
  - do 2 f_equal.
    replace (Py.len (ty ++ String sep name) - (Py.len name + 1) + 1)
      with (Py.len (ty ++ String sep ""))
      by (rewrite !len_app; unfold Py.len; cbn [String.length]; lia).
    replace (Py.len (ty ++ String sep name))
      with (Py.len (ty ++ String sep "") + Py.len name)
      by (rewrite !len_app; unfold Py.len; cbn [String.length]; lia).
    replace (ty ++ String sep (name ++ String delim rest))
      with ((ty ++ String sep "") ++ name ++ String delim rest)
      by (rewrite !app_assoc; reflexivity).
    apply slice_middle.
Qed.

Lemma wf_decl_inv (d : decl) :
  wf_decl d = true ->
  d_type d <> "" /\ all_chars no_delim (d_type d) = true
  /\ is_sep (d_sep d) = true /\ all_chars is_ident_char (d_name d) = true.
Proof.
  unfold wf_decl. intros H.
  apply andb_true_iff in H as [H H4]. apply andb_true_iff in H as [H H3].
  apply andb_true_iff in H as [H1 H2]. apply negb_true_iff in H1.
  apply String.eqb_neq in H1. auto.
Qed.

Lemma ident_name_char (s : string) :
  all_chars is_ident_char s = true -> all_chars name_char s = true.
Proof.
  apply all_chars_impl. intros c H. unfold name_char.
  now rewrite (ident_not_sep _ H), (ident_no_delim _ H).
Qed.

Lemma render_cons (d d' : decl) (ds : list decl) :
  render (d :: d' :: ds) = render_decl d ++ "," ++ render (d' :: ds).
Proof. reflexivity. Qed.

Lemma names_acc_cons (d : decl) (ds : list decl) :
  names_acc (d :: ds) = "," ++ d_name d ++ names_acc ds.
Proof.
  unfold names_acc. destruct ds as [|d' ds]; cbn [map String.concat].
  - now rewrite app_nil_r.
  - reflexivity.
Qed.

Lemma names_acc_concat (d : decl) (ds : list decl) :
  names_acc (d :: ds) = "," ++ String.concat "," (map d_name (d :: ds)).
Proof.
  revert d; induction ds as [|d' ds IH]; intros d.
  - rewrite names_acc_cons. cbn. now rewrite app_nil_r.
  - rewrite names_acc_cons, IH. reflexivity.
Qed.

Lemma render_decl_clean (d : decl) :
  wf_decl d = true -> all_chars no_delim (render_decl d) = true.
Proof.
  intros H. destruct (wf_decl_inv d H) as (_ & H2 & H3 & H4).
  unfold render_decl. rewrite all_chars_app. cbn [all_chars].
  rewrite H2, (is_sep_no_delim _ H3). cbn [andb].
  revert H4. apply all_chars_impl, ident_no_delim.
Qed.

Lemma cnt_render (ds : list decl) :
  forallb wf_decl ds = true ->
  cnt "," (render ds) = Nat.pred (List.length ds).
Proof.
  induction ds as [|d ds IH]; intros H; [reflexivity|].
  cbn [forallb] in H. apply andb_true_iff in H as [Hd Hds].
  pose proof (proj1 (no_delim_has _ (render_decl_clean d Hd))) as Hc.
  destruct ds as [|d' ds].
  - cbn. now apply cnt_has.
  - rewrite render_cons, !cnt_app, (cnt_has _ _ Hc), (IH Hds). reflexivity.
Qed.

(** The outer loop over a non-empty well-formed list: every pass takes
    one entry, in order. *)
Lemma run_entries (ds : list decl) :
  ds <> [] -> forallb wf_decl ds = true ->
  forall acc,
    repeat_step (List.length ds) argslist_step (render ds ++ ")", acc)
    = ("", acc ++ names_acc ds).
Proof.
  induction ds as [|d ds IH]; intros Hne Hwf acc; [congruence|].
  cbn [forallb] in Hwf. apply andb_true_iff in Hwf as [Hd Hds].
  destruct (wf_decl_inv d Hd) as (H1 & H2 & H3 & H4).
  apply ident_name_char in H4.
  cbn [List.length repeat_step]. rewrite names_acc_cons.
  destruct ds as [|d' ds].
  - cbn [render map String.concat]. unfold render_decl.
    replace ((d_type d ++ String (d_sep d) (d_name d)) ++ ")")
      with (d_type d ++ String (d_sep d) (d_name d ++ String ")" ""))
      by (rewrite app_assoc; reflexivity).
    rewrite argslist_step_entry by auto.
    cbn [repeat_step List.length]. unfold names_acc. cbn [map String.concat].
    now rewrite app_nil_r.
  - rewrite render_cons. unfold render_decl at 1.
    replace (((d_type d ++ String (d_sep d) (d_name d))
              ++ "," ++ render (d' :: ds)) ++ ")")
      with (d_type d ++ String (d_sep d)
              (d_name d ++ String "," (render (d' :: ds) ++ ")")))
      by (rewrite !app_assoc; reflexivity).
    rewrite argslist_step_entry by auto.
    rewrite IH by (auto; congruence).
    f_equal. now rewrite !app_assoc.
Qed.

(** On a well-formed declaration list the parser returns the declared
    names, in order. *)
Lemma find_argslist_render (ds : list decl) :
  forallb wf_decl ds = true ->
  find_argslist (render ds) = String.concat "," (map d_name ds).
Proof.
  intros Hwf. destruct ds as [|d ds]; [reflexivity|].
  unfold find_argslist.
  rewrite count_char, cnt_app, (cnt_render _ Hwf). cbn [cnt Ascii.eqb Bool.eqb].
  replace (Nat.pred (List.length (d :: ds)) + (0 + 0) + 1)%nat
    with (List.length (d :: ds)) by (cbn [List.length]; lia).
  rewrite run_entries by (auto; congruence).
  cbn [append]. rewrite names_acc_concat.
  apply (slice_from_app "," _).
Qed.

Lemma trailing_ident_all (s : string) :
  all_chars is_ident_char s = true -> trailing_ident s = s.
Proof.
  induction s as [|c s IH]; [reflexivity|]. cbn [all_chars trailing_ident].
  intros H. apply andb_true_iff in H as [Hc Hs].
  now rewrite (IH Hs), Nat.eqb_refl, Hc.
Qed.

Lemma trailing_ident_behind (a s : string) (c : ascii) :
  is_ident_char c = false -> all_chars is_ident_char s = true ->
  trailing_ident (a ++ String c s) = s.
Proof.
  intros Hc Hs. induction a as [|x a IH]; cbn [append trailing_ident].
  - now rewrite (trailing_ident_all _ Hs), Hc, andb_false_r.
  - rewrite IH.
    destruct (Nat.eqb_spec (String.length s) (String.length (a ++ String c s)))
      as [E|_]; [|reflexivity].
    rewrite length_app in E. cbn [String.length] in E. lia.
Qed.

Lemma sep_not_ident (c : ascii) : is_sep c = true -> is_ident_char c = false.
Proof.
  intros H. destruct (is_ident_char c) eqn:E; [|reflexivity].
  now rewrite (ident_not_sep _ E) in H.
Qed.

Lemma get_some_lt (s : string) (n : nat) :
  (n < String.length s)%nat -> String.get n s <> None.
Proof.
  revert n; induction s as [|c s IH]; intros n H; simpl in H; [lia|].
  destruct n as [|n]; simpl; [discriminate | apply IH; lia].
Qed.

(** The character read by the inner loop always exists: [args[i1-j]] never
    raises IndexError, whatever the text. *)
Lemma find_argslist_index_in_range (args : string) (j : Z) :
  let i1 := if Py.find "," args =? -1 then Py.find ")" args
            else Py.find "," args in
  In j (Py.range i1) -> Py.getitem (i1 - j) args <> None.
Proof.
  intros i1 Hj. unfold Py.range in Hj.
  apply in_map_iff in Hj as (m & <- & Hm). apply in_seq in Hm.
  assert (Hi : exists c k, Py.find_nat (String c "") args = Some k
                           /\ i1 = Z.of_nat k).
  { subst i1. unfold Py.find in *.
    destruct (Py.find_nat "," args) as [k|] eqn:E1.
    - destruct (Z.eqb_spec (Z.of_nat k) (-1)); [lia|]. eauto.
    - cbn [Z.eqb] in *. destruct (Py.find_nat ")" args) as [k|] eqn:E2; [eauto|].
      simpl in Hm. lia. }
  destruct Hi as (c & k & Hk & Hi1). rewrite Hi1 in *.
  apply find_nat_lt in Hk; [|discriminate].
  rewrite Nat2Z.id in Hm.
  replace (Z.of_nat k - Z.of_nat m) with (Z.of_nat (k - m)) by lia.
  rewrite getitem_nat. apply get_some_lt. lia.
Qed.

Lemma repeat_step_add {A : Type} (f : A -> A) (a b : nat) (x : A) :
  repeat_step (a + b) f x = repeat_step b f (repeat_step a f x).
Proof. revert x; induction a as [|a IH]; intros x; cbn [Nat.add repeat_step]; auto. Qed.

(** The outer loop over well-formed entries that a comma and more text
    follow: after one pass per entry the names are taken and the text is
    what follows. *)
Lemma run_entries_then (ds : list decl) :
  ds <> [] -> forallb wf_decl ds = true ->
  forall rest acc,
    repeat_step (List.length ds) argslist_step
      (render ds ++ "," ++ rest, acc)
    = (rest, acc ++ names_acc ds).
Proof.
  induction ds as [|d ds IH]; intros Hne Hwf rest acc; [congruence|].
  cbn [forallb] in Hwf. apply andb_true_iff in Hwf as [Hd Hds].
  destruct (wf_decl_inv d Hd) as (H1 & H2 & H3 & H4).
  apply ident_name_char in H4.
  cbn [List.length repeat_step]. rewrite names_acc_cons.
  destruct ds as [|d' ds].
  - cbn [render map String.concat]. unfold render_decl.
    replace ((d_type d ++ String (d_sep d) (d_name d)) ++ "," ++ rest)
      with (d_type d ++ String (d_sep d) (d_name d ++ String "," rest))
      by (rewrite !app_assoc; reflexivity).
    rewrite argslist_step_entry by auto.
    cbn [repeat_step List.length]. unfold names_acc. cbn [map String.concat].
    now rewrite app_nil_r.
  - rewrite render_cons. unfold render_decl at 1.
    replace (((d_type d ++ String (d_sep d) (d_name d))
              ++ "," ++ render (d' :: ds)) ++ "," ++ rest)
      with (d_type d ++ String (d_sep d)
              (d_name d ++ String "," (render (d' :: ds) ++ "," ++ rest)))
      by (rewrite !app_assoc; reflexivity).
    rewrite argslist_step_entry by auto.
    rewrite IH by (auto; congruence).
    f_equal. now rewrite !app_assoc.
Qed.

(** A pass of the outer loop only adds to the names found: nothing, or a
    comma and a name. *)
Lemma argslist_step_appends (args acc : string) :
  exists args' e,
    argslist_step (args, acc) = (args', acc ++ e)
    /\ (e = "" \/ Py.startswith "," e = true).
Proof.
  unfold argslist_step.
  match goal with
  | |- context [List.find ?f ?l] => destruct (List.find f l) as [j|]
  end.
  - do 2 eexists. split; [reflexivity|]. right. reflexivity.
  - exists args, "". rewrite app_nil_r. auto.
Qed.

Lemma repeat_step_appends (n : nat) :
  forall args acc, exists args' e,
    repeat_step n argslist_step (args, acc) = (args', acc ++ e)
    /\ (e = "" \/ Py.startswith "," e = true).
Proof.
  induction n as [|n IH]; intros args acc; cbn [repeat_step].
  - exists args, "". rewrite app_nil_r. auto.
  - destruct (argslist_step_appends args acc) as (a1 & e1 & -> & H1).
    destruct (IH a1 (acc ++ e1)) as (a2 & e2 & -> & H2).
    exists a2, (e1 ++ e2). rewrite app_assoc. split; [reflexivity|].
    destruct H1 as [->|H1]; [exact H2|]. right.
    now apply startswith_weaken.
Qed.

(** C7, as the code has it: in a declaration list whose entries have the
    shape type part, then a space, [*] or [&], then an identifier, the
    name taken from each entry is that identifier, which is the longest
    trailing run of identifier characters of the entry, and the names
    come out in the order of the entries; the same holds of the entries
    of that shape which begin a list, whatever text follows them behind
    a comma. *)
Theorem find_argslist_wellformed_entries (ds : list decl) (rest : string) :
  forallb wf_decl ds = true ->
  find_argslist (render ds) = String.concat "," (map d_name ds)
  /\ Forall (fun d => trailing_ident (render_decl d) = d_name d) ds
  /\ (ds <> [] ->
      exists more,
        find_argslist (render ds ++ "," ++ rest)
        = String.concat "," (map d_name ds) ++ more
        /\ (more = "" \/ Py.startswith "," more = true)).
Proof.
  intros Hwf. split; [now apply find_argslist_render|]. split.
  - apply Forall_forall. intros d Hd.
    rewrite forallb_forall in Hwf.
    destruct (wf_decl_inv d (Hwf d Hd)) as (_ & _ & H3 & H4).
    unfold render_decl. apply trailing_ident_behind; [|assumption].
    now apply sep_not_ident.
  - intros Hne. unfold find_argslist.
    rewrite count_char, !app_assoc, !cnt_app, (cnt_render _ Hwf).
    replace (Nat.pred (List.length ds) + (cnt "," "," + (cnt "," rest + cnt "," ")")) + 1)%nat
      with (List.length ds + (cnt "," rest + 1))%nat
      by (destruct ds; [congruence | cbn; lia]).
    rewrite repeat_step_add, run_entries_then by assumption.
    destruct (repeat_step_appends (cnt "," rest + 1) (rest ++ ")")
                ("" ++ names_acc ds)) as (a & more & -> & Hm).
    exists more. split; [|exact Hm].
    destruct ds as [|d ds]; [congruence|].
    cbn [append]. rewrite names_acc_concat, app_assoc.
    apply (slice_from_app "," _).
Qed.

Lemma find_argslist_wellformed_entries_witness :
  find_argslist "const Scalar *uu, Scalar *vv" = "uu,vv"
  /\ Forall (fun d => trailing_ident (render_decl d) = d_name d)
       [mkDecl "const Scalar " "*" "uu"; mkDecl " Scalar " "*" "vv"]
  /\ ([mkDecl "const Scalar " "*" "uu"; mkDecl " Scalar " "*" "vv"] <> [] ->
      exists more,
        find_argslist ("const Scalar *uu, Scalar *vv" ++ "," ++ "n")
        = "uu,vv" ++ more
        /\ (more = "" \/ Py.startswith "," more = true)).
Proof.
  apply (find_argslist_wellformed_entries
           [mkDecl "const Scalar " "*" "uu"; mkDecl " Scalar " "*" "vv"] "n").
  reflexivity.
Defined.

(** C7 as stated fails: an entry that is a bare identifier yields no
    name, and then no later entry does either; and what is taken from an
    entry need not be a run of identifier characters. *)
Lemma bare_identifier_is_not_extracted :
  (find_argslist "x" = "" /\ trailing_ident "x" = "x")
  /\ (find_argslist "int x[3]" = "x[3]" /\ trailing_ident "int x[3]" = "")
  /\ (find_argslist "x, int n" = "" /\ trailing_ident " int n" = "n").
Proof. repeat split; reflexivity. Qed.

(** C6, as the code has it: for a well-formed declaration list the names
    passed at the host call site and in the kernel launch are the same
    sequence, the declared names in declaration order, and the signatures
    carry the declaration list as written. *)
Theorem argument_names_agree
  (kname boundargs tail : string) (parts : list string) (ds : list decl) :
  forallb wf_decl ds = true ->
  kcall_of kname (boundargs ++ "," ++ find_argslist (render ds))
  = kname ++ "(" ++ boundargs ++ ","
    ++ String.concat "," (map d_name ds) ++ ");"
  /\ launch_call kname parts (render ds)
     = "   " ++ kname ++ "_kernel<<<grid,threads,0>>>(         " ++ nl
       ++ for_parts
            (fun p => "    " ++ p ++ "begin, " ++ p ++ "end,        " ++ nl) parts
       ++ "   " ++ String.concat "," (map d_name ds)
       ++ ");                   " ++ nl
       ++ "}                                                  " ++ nl ++ nl
  /\ signature parts (render ds) tail
     = for_parts
         (fun p => "    int " ++ p ++ "begin, int " ++ p ++ "end,  " ++ nl) parts
       ++ "    " ++ String.concat "," (map render_decl ds) ++ tail.
Proof.
  intros Hwf. unfold kcall_of, launch_call, signature.
  rewrite (find_argslist_render ds Hwf).
  repeat split; try reflexivity. norm_app. reflexivity.
Qed.

Lemma argument_names_agree_witness :
  kcall_of "magma_template_0_src"
    ("0,r->nelem" ++ "," ++ find_argslist "const Scalar *uu, Scalar *vv")
  = "magma_template_0_src(0,r->nelem,uu,vv);"
  /\ launch_call "magma_template_0_src" ["e"] "const Scalar *uu, Scalar *vv"
     = "   magma_template_0_src_kernel<<<grid,threads,0>>>(         " ++ nl
       ++ "    ebegin, eend,        " ++ nl
       ++ "   uu,vv);                   " ++ nl
       ++ "}                                                  " ++ nl ++ nl
  /\ signature ["e"] "const Scalar *uu, Scalar *vv" ")"
     = "    int ebegin, int eend,  " ++ nl
       ++ "    const Scalar *uu, Scalar *vv)".
Proof.
  apply (argument_names_agree "magma_template_0_src" "0,r->nelem" ")" ["e"]
           [mkDecl "const Scalar " "*" "uu"; mkDecl " Scalar " "*" "vv"]).
  reflexivity.
Defined.

(** C6 as stated fails: behind a tab the second name is never found, so
    the call site and the launch pass [x] alone although the list declares
    [x] and [n]; and a blank before the closing parenthesis gives an empty
    name. *)
Lemma argument_names_can_be_lost :
  (find_argslist ("double *x," ++ tab ++ "int" ++ tab ++ "n") = "x"
   /\ map trailing_ident
        (Py.split "," ("double *x," ++ tab ++ "int" ++ tab ++ "n"))
      = ["x"; "n"])
  /\ find_argslist " double *x, int n " = "x,".
Proof. repeat split; reflexivity. Qed.

(** ** The generated names *)

Lemma app_inv_tail (a b c : string) : a ++ c = b ++ c -> a = b.
Proof.
  revert b; induction a as [|x a IH]; intros [|y b] H; cbn [append] in H.
  - reflexivity.
  - apply (f_equal String.length) in H. cbn [String.length] in H.
    rewrite length_app in H. lia.
  - apply (f_equal String.length) in H. cbn [String.length] in H.
    rewrite length_app in H. lia.
  - injection H as -> H. f_equal. now apply IH.
Qed.

Lemma str_inj (n m : nat) : Py.str n = Py.str m -> n = m.
Proof.
  unfold Py.str. intros H.
  apply (f_equal NilEmpty.uint_of_string) in H.
  rewrite !NilEmpty.usu in H. injection H as H.
  now apply DecimalNat.Unsigned.to_uint_inj.
Qed.

Lemma kname_of_inj (fname : string) (n m : nat) :
  kname_of n fname = kname_of m fname -> n = m.
Proof.
  unfold kname_of. cbn [append]. intros H.
  injection H as H. apply app_inv_tail in H. now apply str_inj.
Qed.

Lemma NoDup_map_inj {A B : Type} (f : A -> B) (l : list A) :
  (forall a b, f a = f b -> a = b) -> NoDup l -> NoDup (map f l).
Proof.
  intros Hf Hl. induction Hl as [|x l Hx Hl IH]; cbn [map]; constructor.
  - rewrite in_map_iff. intros (y & Hy & Hin).
    apply Hf in Hy. subst y. contradiction.
  - assumption.
Qed.

Lemma knames_NoDup (fname : string) (n : nat) :
  NoDup (map (fun k => kname_of k fname) (seq 0 n)).
Proof.
  apply NoDup_map_inj; [|apply seq_NoDup].
  intros a b. apply kname_of_inj.
Qed.

Lemma item_raises (l : list string) (i : nat) (e : exn) :
  item l i = Raise e -> e = IndexError.
Proof. unfold item. destruct (nth_error l i); congruence. Qed.

Lemma bindings_from_raises (parts partsinit : list string) (e : exn) :
  forall i, bindings_from i parts partsinit = Raise e -> e = IndexError.
Proof.
  induction parts as [|p ps IH]; intros i H; cbn [bindings_from] in H.
  - discriminate.
  - destruct (item partsinit i) eqn:E; cbn [bind] in H.
    + destruct (bindings_from (S i) ps partsinit) eqn:E'; cbn [bind] in H;
        [discriminate|]. injection H as <-. now apply (IH (S i)).
    + injection H as <-. now apply item_raises in E.
Qed.

Lemma geometry_raises (parts : list string) (e : exn) :
  geometry parts = Raise e -> e = IndexError.
Proof.
  unfold geometry.
  destruct (List.length parts =? 1)%nat; [|destruct (List.length parts =? 2)%nat];
    repeat (match goal with
            | |- context [item ?l ?i] =>
                let E := fresh "E" in
                destruct (item l i) eqn:E; cbn [bind];
                [| apply item_raises in E; intros H; injection H as <-; exact E]
            end);
    discriminate.
Qed.

Lemma kernel_text_raises (kname args template : string) (parts : list string)
  (e : exn) :
  kernel_text kname parts args template = Raise e -> e = IndexError.
Proof.
  unfold kernel_text, kernel_def, wrapper_def, bindings.
  destruct (bindings_from 0 parts (partsinit_of (List.length parts))) eqn:E1;
    cbn [bind].
  - destruct (geometry parts) eqn:E2; cbn [bind]; [discriminate|].
    intros H; injection H as <-. now apply geometry_raises in E2.
  - intros H; injection H as <-. now apply bindings_from_raises in E1.
Qed.

(** What one iteration does to the buffer and to the log of names. *)
Lemma body_cases (fname : string) (k : nat) (st : state) :
  (Py.find_nat marker (prog st) = None
   /\ body fname k st = (st, Some ValueError))
  \/ (exists i st' o,
        Py.find_nat marker (prog st) = Some i
        /\ body fname k st = (st', o)
        /\ (o = None \/ o = Some IndexError)
        /\ prog st' = rest_of (Py.slice_from (Z.of_nat i + 14) (prog st))
        /\ knames st' = (knames st ++ [kname_of k fname])%list).
Proof.
  unfold body. destruct (Py.find_nat marker (prog st)) as [i|]; [right|left; auto].
  destruct (find_argsbound _) as [boundvars boundargs].
  match goal with
  | |- context [kernel_text ?a ?b ?c ?d] =>
      destruct (kernel_text a b c d) as [t|e] eqn:E
  end.
  - do 3 eexists. repeat split; eauto.
  - apply kernel_text_raises in E. subst e.
    do 3 eexists. repeat split; eauto.
Qed.

Lemma loop_app (fname : string) (a b : list nat) (st : state) :
  loop fname (a ++ b)%list st
  = match loop fname a st with
    | (st', None) => loop fname b st'
    | (st', Some e) => (st', Some e)
    end.
Proof.
  revert st; induction a as [|k a IH]; intros st; cbn [List.app loop].
  - reflexivity.
  - destruct (body fname k st) as [st' [e|]]; [reflexivity | apply IH].
Qed.

Lemma loop_raises (fname : string) (ks : list nat) :
  forall st st' e, loop fname ks st = (st', Some e) ->
                   e = ValueError \/ e = IndexError.
Proof.
  induction ks as [|k ks IH]; intros st st' e H; cbn [loop] in H; [discriminate|].
  destruct (body_cases fname k st) as [[_ Hb]|(i & st1 & o & _ & Hb & Ho & _)];
    rewrite Hb in H.
  - injection H as _ <-. auto.
  - destruct Ho as [->| ->]; [eauto|]. injection H as _ <-. auto.
Qed.

Lemma loop_knames (fname : string) (ks : list nat) :
  forall st, exists m,
    (m <= List.length ks)%nat
    /\ knames (fst (loop fname ks st))
       = (knames st ++ map (fun k => kname_of k fname) (firstn m ks))%list
    /\ (snd (loop fname ks st) = None -> m = List.length ks).
Proof.
  induction ks as [|k ks IH]; intros st; cbn [loop].
  - exists 0%nat. cbn. rewrite List.app_nil_r. auto.
  - destruct (body_cases fname k st)
      as [[_ Hb]|(i & st1 & o & _ & Hb & Ho & _ & Hn)]; rewrite Hb.
    + exists 0%nat. cbn. rewrite List.app_nil_r.
      repeat split; [lia | discriminate].
    + destruct Ho as [->| ->].
      * destruct (IH st1) as (m & Hm & Hk & Hc). exists (S m).
        cbn [List.length firstn map]. rewrite Hk, Hn, <- List.app_assoc.
        repeat split; [lia | auto].
      * exists 1%nat. cbn [fst snd List.length firstn map]. rewrite Hn.
        repeat split; [lia | discriminate].
Qed.

Lemma translate_knames (fname source : string) :
  knames (fst (translate fname source))
  = knames (fst (loop fname (seq 0 (Py.count marker source)) (init source)))
  /\ snd (translate fname source)
     = snd (loop fname (seq 0 (Py.count marker source)) (init source)).
Proof.
  unfold translate.
  destruct (loop fname (seq 0 (Py.count marker source)) (init source))
    as [st [e|]]; auto.
Qed.

Lemma firstn_seq (m start n : nat) :
  (m <= n)%nat -> firstn m (seq start n) = seq start m.
Proof.
  revert start n; induction m as [|m IH]; intros start n H; [reflexivity|].
  destruct n as [|n]; [lia|]. cbn [seq firstn]. f_equal. apply IH. lia.
Qed.


(** ** Counting markers *)

Lemma occ_app_ge (sub a b : string) :
  (occ sub a + occ sub b <= occ sub (a ++ b))%nat.
Proof.
  induction a as [|c a IH]; [simpl; lia|].
  change (String c a ++ b) with (String c (a ++ b)). cbn [occ].
  destruct (Py.startswith sub (String c a)) eqn:E.
  - change (String c (a ++ b)) with (String c a ++ b).
    rewrite (startswith_weaken _ _ b E). lia.
  - destruct (Py.startswith sub (String c (a ++ b))); lia.
Qed.

Lemma occ_take_drop (sub s : string) (n : nat) :
  (occ sub (Py.take n s) + occ sub (Py.drop n s) <= occ sub s)%nat.
Proof. rewrite <- (take_drop n s) at 3. apply occ_app_ge. Qed.

Lemma occ_at_prefix (sub t : string) :
  sub <> "" -> (1 + occ sub t <= occ sub (sub ++ t))%nat.
Proof.
  destruct sub as [|c sub]; [congruence|]. intros _.
  change (String c sub ++ t) with (String c (sub ++ t)). cbn [occ].
  change (String c (sub ++ t)) with (String c sub ++ t).
  rewrite startswith_app. pose proof (occ_app_ge (String c sub) sub t). lia.
Qed.

Lemma occ_found (sub s : string) (k : nat) :
  sub <> "" -> Py.find_nat sub s = Some k ->
  (1 + occ sub (Py.drop (k + String.length sub) s) <= occ sub s)%nat.
Proof.
  intros Hsub H. destruct (find_nat_split _ _ _ H) as (t & _ & _ & Hd).
  rewrite <- drop_drop, Hd, drop_app.
  pose proof (occ_at_prefix sub t Hsub).
  pose proof (occ_take_drop sub s k). rewrite Hd in *. lia.
Qed.

(** The marker does not overlap itself. *)
Lemma marker_no_overlap (s : string) (d : nat) :
  Py.startswith marker s = true -> (1 <= d <= 13)%nat ->
  Py.startswith marker (Py.drop d s) = false.
Proof.
  intros H Hd. destruct (startswith_inv _ _ H) as [t ->].
  do 14 (destruct d as [|d]; [first [lia | reflexivity]|]). lia.
Qed.

Lemma count_skip_occ (s : string) :
  forall k,
    (forall i, (i < k)%nat -> Py.startswith marker (Py.drop i s) = false) ->
    Py.count_skip marker k s = occ marker s.
Proof.
  induction s as [|c s IH]; intros k Hk; [reflexivity|].
  cbn [Py.count_skip occ]. destruct k as [|k].
  - destruct (Py.startswith marker (String c s)) eqn:E.
    + rewrite IH; [reflexivity|]. intros i Hi.
      apply (marker_no_overlap _ (S i) E). simpl in Hi. lia.
    + now rewrite IH by (intros; lia).
  - pose proof (Hk 0%nat ltac:(lia)) as H0. cbn [Py.drop] in H0.
    rewrite H0, IH; [reflexivity|].
    intros i Hi. apply (Hk (S i)). lia.
Qed.

Lemma count_marker_occ (s : string) : Py.count marker s = occ marker s.
Proof. apply (count_skip_occ s 0). intros; lia. Qed.

(** ** The scanner's loop and the markers it meets *)

Lemma slice_from_nat (n : nat) (s : string) :
  (n <= String.length s)%nat -> Py.slice_from (Z.of_nat n) s = Py.drop n s.
Proof.
  intros H. unfold Py.slice_from, Py.len.
  rewrite clamp_inside by lia. now rewrite Nat2Z.id.
Qed.

Lemma rest_and_span (q : string) :
  exists n, rest_of q = Py.drop n q /\ consumed_span q = Py.take n q.
Proof.
  unfold rest_of, consumed_span, Py.slice_from, Py.slice_to.
  destruct (find_matching q "{" "}") as [i1 i2]. eauto.
Qed.

Lemma find_occ (sub s : string) :
  sub <> "" -> Py.find sub s <> -1 -> (1 <= occ sub s)%nat.
Proof.
  intros Hsub H. unfold Py.find in H.
  destruct (Py.find_nat sub s) as [k|] eqn:E; [|congruence].
  pose proof (occ_found sub s k Hsub E). lia.
Qed.

(** An iteration that succeeds uses up the marker it found, and one more
    if a marker stands in the span it drops. *)
Lemma body_occ (fname : string) (k : nat) (st st' : state) :
  body fname k st = (st', None) ->
  (occ marker (prog st') + 1 + (if marker_in_span (prog st) then 1 else 0)
   <= occ marker (prog st))%nat.
Proof.
  intros H.
  destruct (body_cases fname k st) as [[_ Hb]|(i & st1 & o & Hi & Hb & _ & Hp & _)];
    rewrite Hb in H; [discriminate|].
  injection H as -> _. rewrite Hp. unfold marker_in_span. rewrite Hi.
  assert (Hm : marker <> "") by discriminate.
  pose proof (occ_found marker (prog st) i Hm Hi) as Hfound.
  pose proof (find_nat_split _ _ _ Hi) as (t & Hs & Hl & _).
  replace (Z.of_nat i + 14) with (Z.of_nat (i + String.length marker))
    by (cbn [marker String.length]; lia).
  rewrite slice_from_nat.
  2:{ rewrite Hs, !length_app, Hl. lia. }
  destruct (rest_and_span (Py.drop (i + String.length marker) (prog st)))
    as (n & -> & ->).
  pose proof (occ_take_drop marker
                (Py.drop (i + String.length marker) (prog st)) n) as Htd.
  destruct (Z.eqb_spec
              (Py.find marker
                 (Py.take n (Py.drop (i + String.length marker) (prog st))))
              (-1)) as [_|Hne]; cbn [negb].
  - lia.
  - pose proof (find_occ marker _ Hm Hne). lia.
Qed.

Lemma loop_occ (fname : string) (ks : list nat) :
  forall st st', loop fname ks st = (st', None) ->
                 (occ marker (prog st') + List.length ks
                  <= occ marker (prog st))%nat.
Proof.
  induction ks as [|k ks IH]; intros st st' H; cbn [loop] in H.
  - injection H as ->. simpl. lia.
  - destruct (body fname k st) as [st1 [e|]] eqn:Hb; [discriminate|].
    pose proof (body_occ _ _ _ _ Hb). pose proof (IH _ _ H).
    cbn [List.length]. destruct (marker_in_span (prog st)); lia.
Qed.


(** ** Sample runs *)

Example py_slice_negative : Py.slice 1 (-1) "abcdef" = "bcde".
Proof. reflexivity. Qed.

Example py_count_non_overlapping : Py.count "aa" "aaaaa" = 2%nat.
Proof. reflexivity. Qed.

Example py_split_keeps_empty : Py.split "," "a,,b," = ["a"; ""; "b"; ""].
Proof. reflexivity. Qed.

Example find_argsbound_three :
  find_argsbound "e=0:r->nelem, d=0:ncomp, i=0:r->elemsize"
  = ("e, d, i", "0,r->nelem,0,ncomp,0,r->elemsize").
Proof. reflexivity. Qed.

Example find_matching_nested : find_matching "a{b{c}d}e" "{" "}" = (1, 8).
Proof. reflexivity. Qed.

Example host_text_one_dimension :
  cfile (fst (translate "src"
    "magma_template<<e=0:r->nelem>>(const Scalar *uu, Scalar *vv){ vv[e]=uu[e]; }"))
  = "void                                            " ++ nl
    ++ "magma_template_0_src(                                        " ++ nl
    ++ "    int ebegin, int eend," ++ nl
    ++ "    const Scalar *uu, Scalar *vv);                              " ++ nl
    ++ "magma_template_0_src(0,r->nelem,uu,vv);".
Proof. reflexivity. Qed.

Example no_marker_identity :
  translate "src" "int main() { return 0; }"
  = (mkState "int main() { return 0; }" "int main() { return 0; }" "" [], None).
Proof. reflexivity. Qed.

Example four_dimensions_raise :
  snd (translate "src"
         "magma_template<<a=0:1,b=0:1,c=0:1,d=0:1>>(int *x){ x[a]=b; }")
  = Some IndexError.
Proof. reflexivity. Qed.

Example filestem_path : filestem "dir/my-file.c" = "my_file".
Proof. reflexivity. Qed.

Lemma replace_char_absent (c : ascii) (new s : string) :
  has c s = false -> Py.replace (String c "") new s = s.
Proof.
  unfold Py.replace. induction s as [|d s IH]; [reflexivity|].
  cbn [has]. intros H. apply orb_false_iff in H as [Hd Hs].
  cbn [Py.replace_skip]. rewrite startswith_char, Ascii.eqb_sym, Hd.
  now rewrite (IH Hs).
Qed.

Lemma rfind_char_none (c : ascii) (s : string) :
  has c s = false -> Py.rfind (String c "") s = -1.
Proof.
  unfold Py.rfind. intros H.
  assert (E : Py.rfind_nat (String c "") s = None); [|now rewrite E].
  induction s as [|d s IH]; [reflexivity|].
  cbn [has] in H. apply orb_false_iff in H as [Hd Hs].
  cbn [Py.rfind_nat]. rewrite (IH Hs), startswith_char, Ascii.eqb_sym, Hd.
  reflexivity.
Qed.

(** For a file name [base.ext] in the current directory, without hyphen,
    the stem used in the generated names is [base]. *)
Lemma filestem_simple (base ext : string) :
  has "." base = false -> has "/" base = false -> has "-" base = false ->
  filestem (base ++ "." ++ ext) = base.
Proof.
  intros H1 H2 H3. unfold filestem.
  change (base ++ "." ++ ext) with (base ++ String "." ext).
  rewrite (find_char_app "." base ext H1), slice_to_app.
  rewrite (replace_char_absent "-" "_" base H3), (rfind_char_none "/" base H2).
  apply (slice_from_app "" base).
Qed.

(** ** More on the bracket matcher *)

Lemma take_0 (s : string) : Py.take 0 s = "".
Proof. destruct s; reflexivity. Qed.

Lemma length_drop (n : nat) (s : string) :
  String.length (Py.drop n s) = (String.length s - n)%nat.
Proof.
  revert s; induction n as [|n IH]; intros [|c s]; cbn [Py.drop String.length];
    try lia. rewrite IH. lia.
Qed.

Lemma length_take (n : nat) (s : string) :
  String.length (Py.take n s) = Nat.min n (String.length s).
Proof.
  revert s; induction n as [|n IH]; intros [|c s]; cbn [Py.take String.length];
    try lia. rewrite IH. lia.
Qed.

Lemma has_take (c : ascii) (n : nat) (s : string) :
  has c s = false -> has c (Py.take n s) = false.
Proof.
  intros H. rewrite <- (take_drop n s), has_app in H.
  now apply orb_false_iff in H.
Qed.

Lemma has_drop (c : ascii) (n : nat) (s : string) :
  has c s = false -> has c (Py.drop n s) = false.
Proof.
  intros H. rewrite <- (take_drop n s), has_app in H.
  now apply orb_false_iff in H.
Qed.

Lemma slice_from_0 (s : string) : Py.slice_from 0 s = s.
Proof. apply (slice_from_app "" s). Qed.

(** The scan stops behind the closing delimiter that brings the counter
    back to zero: [inner] keeps the counter positive and leaves it at 1. *)
Lemma match_scan_closes (left right : ascii) (post : string) :
  left <> right ->
  forall (inner : string) (i num : Z),
    (forall k, (k <= String.length inner)%nat ->
       Z.of_nat (cnt right (Py.take k inner))
       < num + Z.of_nat (cnt left (Py.take k inner))) ->
    num + Z.of_nat (cnt left inner) = 1 + Z.of_nat (cnt right inner) ->
    match_scan left right (inner ++ String right post) i num
    = Some (i + Py.len inner + 1).
Proof.
  intros Hlr. induction inner as [|c b IH]; intros i num Hpos Htot.
  - cbn [append match_scan]. rewrite Ascii.eqb_refl.
    cbn [cnt] in Htot. replace (num - 1) with 0 by lia. cbn. f_equal.
    unfold Py.len. cbn. lia.
  - cbn [append match_scan].
    pose proof (Hpos 1%nat ltac:(cbn; lia)) as H1.
    cbn [Py.take cnt] in H1. rewrite ?take_0 in H1. cbn [cnt] in H1.
    cbn [cnt] in Htot.
    assert (Hb : forall num',
      num' = (if Ascii.eqb c right then num - 1
              else if Ascii.eqb c left then num + 1 else num) ->
      (num' =? 0) = false
      /\ (forall k, (k <= String.length b)%nat ->
            Z.of_nat (cnt right (Py.take k b))
            < num' + Z.of_nat (cnt left (Py.take k b)))
      /\ num' + Z.of_nat (cnt left b) = 1 + Z.of_nat (cnt right b)).
    { intros num' ->. repeat split.
      - apply Z.eqb_neq.
        destruct (Ascii.eqb_spec c right) as [->|Hr].
        + destruct (Ascii.eqb_spec right left); [congruence | lia].
        + destruct (Ascii.eqb_spec c left); lia.
      - intros k Hk. specialize (Hpos (S k) ltac:(cbn; lia)).
        cbn [Py.take cnt] in Hpos.
        destruct (Ascii.eqb_spec c right) as [->|Hr].
        + destruct (Ascii.eqb_spec right left); [congruence | lia].
        + destruct (Ascii.eqb_spec c left); lia.
      - destruct (Ascii.eqb_spec c right) as [->|Hr].
        + destruct (Ascii.eqb_spec right left); [congruence | lia].
        + destruct (Ascii.eqb_spec c left); lia. }
    destruct (Hb _ eq_refl) as (Hz & Hpos' & Htot').
    rewrite Hz, (IH _ _ Hpos' Htot'). f_equal.
    unfold Py.len. cbn [String.length]. lia.
Qed.

(** X1: on a buffer [pre { inner } post] whose [inner] is balanced (no prefix
    of it closes more than it opens, and it closes as often as it opens),
    the matcher returns the index of the first opening delimiter and the
    index just behind the closing delimiter that matches it, whatever the
    nesting inside [inner]. *)
Theorem find_matching_balanced (left right : ascii) (pre inner post : string) :
  left <> right ->
  has left pre = false ->
  (forall k, (k <= String.length inner)%nat ->
     (cnt right (Py.take k inner) <= cnt left (Py.take k inner))%nat) ->
  cnt right inner = cnt left inner ->
  find_matching (pre ++ String left (inner ++ String right post)) left right
  = (Py.len pre, Py.len pre + Py.len inner + 2).
Proof.
  intros Hlr Hpre Hpos Htot. unfold find_matching.
  rewrite (find_char_app left pre _ Hpre).
  replace (pre ++ String left (inner ++ String right post))
    with ((pre ++ String left "") ++ inner ++ String right post)
    by (rewrite app_assoc; reflexivity).
  replace (Py.len pre + 1) with (Py.len (pre ++ String left ""))
    by (rewrite len_app; reflexivity).
  rewrite slice_from_app, (match_scan_closes left right post Hlr).
  - f_equal. rewrite len_app. unfold Py.len. cbn [String.length]. lia.
  - intros k Hk. specialize (Hpos k Hk). lia.
  - lia.
Qed.

Lemma find_matching_balanced_witness :
  find_matching "(x){ if (y) { g(); } } h();" "{" "}" = (3, 22).
Proof.
  apply (find_matching_balanced "{" "}" "(x)" " if (y) { g(); } " " h();").
  - discriminate.
  - reflexivity.
  - intros k Hk. cbn in Hk.
    do 18 (destruct k as [|k]; [cbn; lia|]). lia.
  - reflexivity.
Defined.

(** X2: when the buffer has no opening delimiter the first index is -1
    and the scan starts at the head of the buffer with the counter at 1,
    so the first closing delimiter ends the span. *)
Theorem find_matching_without_opening (left right : ascii) (pre post : string) :
  left <> right ->
  has left (pre ++ String right post) = false ->
  has right pre = false ->
  find_matching (pre ++ String right post) left right = (-1, Py.len pre + 1).
Proof.
  intros Hlr Hl Hr. unfold find_matching.
  rewrite (find_char_none left _ Hl).
  change (-1 + 1) with 0. rewrite slice_from_0.
  rewrite has_app in Hl. apply orb_false_iff in Hl as [Hlp _].
  rewrite (match_scan_closes left right post Hlr pre 0 1); [reflexivity | |].
  - intros k _. rewrite (cnt_has _ _ (has_take right k pre Hr)). lia.
  - rewrite (cnt_has _ _ Hlp), (cnt_has _ _ Hr). lia.
Qed.

Lemma find_matching_without_opening_witness :
  find_matching "a = b; } rest" "{" "}" = (-1, 8).
Proof.
  apply (find_matching_without_opening "{" "}" "a = b; " " rest");
    [discriminate | reflexivity | reflexivity].
Defined.

Lemma match_scan_bound (left right : ascii) (s : string) :
  forall i num e,
    match_scan left right s i num = Some e -> i < e <= i + Py.len s.
Proof.
  induction s as [|c s IH]; intros i num e H; cbn [match_scan] in H;
    [discriminate|].
  unfold Py.len in *. cbn [String.length].
  match type of H with
  | (if ?b then _ else _) = _ => destruct b
  end.
  - injection H as <-. lia.
  - apply IH in H. lia.
Qed.

(** X3: the two indices of the matcher always delimit a non-empty stretch
    of the buffer: the first is the position of the first opening
    delimiter (or -1), the second lies strictly behind it and never
    beyond the end of the buffer. *)
Theorem find_matching_bounds (line : string) (left right : ascii) :
  fst (find_matching line left right) = Py.find (String left "") line
  /\ -1 <= fst (find_matching line left right)
        < snd (find_matching line left right)
  /\ snd (find_matching line left right) <= Py.len line.
Proof.
  unfold find_matching.
  assert (Hf : -1 <= Py.find (String left "") line < Py.len line).
  { unfold Py.find, Py.len.
    destruct (Py.find_nat (String left "") line) as [k|] eqn:E.
    - apply find_nat_lt in E; [lia | discriminate].
    - lia. }
  set (i3 := Py.find (String left "") line) in *.
  assert (Hlen : Py.len (Py.slice_from (i3 + 1) line) = Py.len line - (i3 + 1)).
  { unfold Py.slice_from. rewrite clamp_inside by lia.
    unfold Py.len in *. rewrite length_drop. lia. }
  destruct (match_scan left right (Py.slice_from (i3 + 1) line) (i3 + 1) 1)
    as [e|] eqn:E; cbn [fst snd].
  - apply match_scan_bound in E. rewrite Hlen in E.
    repeat split; lia.
  - repeat split; lia.
Qed.

(** ** More on the bounds parser *)

Ltac len_lia := rewrite ?len_app; unfold Py.len; cbn [String.length]; lia.

Lemma all_chars_has (f : ascii -> bool) (c : ascii) (s : string) :
  f c = false -> all_chars f s = true -> has c s = false.
Proof.
  intros Hc. induction s as [|d s IH]; cbn [all_chars has]; [reflexivity|].
  intros H. apply andb_true_iff in H as [Hd Hs]. rewrite (IH Hs), orb_false_r.
  destruct (Ascii.eqb_spec d c) as [->|]; [congruence | reflexivity].
Qed.

Lemma bound_char_end (s : string) :
  all_chars bound_char s = true -> all_chars end_char s = true.
Proof.
  apply all_chars_impl. unfold bound_char, end_char. intros c H.
  apply andb_true_iff in H as [H H3]. apply andb_true_iff in H as [H1 H2].
  now rewrite H1, H3.
Qed.

(** One pass of the loop of [find_argsbound] on a well-formed clause
    followed by a comma. *)
Lemma argsbound_step_clause (d : dimension) (rest args ab : string) (i : nat) :
  wf_dim d = true ->
  argsbound_step (render_dim d ++ "," ++ rest, args, ab) i
  = (rest,
     (if (i =? 0)%nat then args else args ++ ",") ++ dm_name d,
     ((if (i =? 0)%nat then ab else ab ++ ",") ++ dm_start d ++ ",")
     ++ dm_end d).
Proof.
  unfold wf_dim. intros H.
  apply andb_true_iff in H as [H He]. apply andb_true_iff in H as [Hn Hs].
  destruct d as [name start stop]. cbn [dm_name dm_start dm_end] in *.
  unfold render_dim. cbn [dm_name dm_start dm_end].
  pose proof (all_chars_has bound_char "=" name eq_refl Hn) as Hn1.
  pose proof (all_chars_has bound_char ":" name eq_refl Hn) as Hn2.
  pose proof (all_chars_has bound_char "," name eq_refl Hn) as Hn3.
  pose proof (all_chars_has bound_char ":" start eq_refl Hs) as Hs2.
  pose proof (all_chars_has bound_char "," start eq_refl Hs) as Hs3.
  pose proof (all_chars_has end_char "," stop eq_refl He) as He3.
  set (bounds := (name ++ "=" ++ start ++ ":" ++ stop) ++ "," ++ rest).
  assert (E1 : Py.find "=" bounds = Py.len name).
  { subst bounds. rewrite !app_assoc. apply (find_char_app "=" name _ Hn1). }
  assert (E2 : Py.find ":" bounds = Py.len (name ++ "=") + Py.len start).
  { subst bounds.
    replace ((name ++ "=" ++ start ++ ":" ++ stop) ++ "," ++ rest)
      with ((name ++ "=" ++ start) ++ String ":" (stop ++ "," ++ rest))
      by (rewrite !app_assoc; reflexivity).
    rewrite find_char_app; [len_lia|].
    rewrite !has_app, Hn2, Hs2. reflexivity. }
  assert (E3 : Py.find "," bounds
               = Py.len (name ++ "=" ++ start ++ ":") + Py.len stop).
  { subst bounds.
    replace ((name ++ "=" ++ start ++ ":" ++ stop) ++ "," ++ rest)
      with ((name ++ "=" ++ start ++ ":" ++ stop) ++ String "," rest)
      by reflexivity.
    rewrite find_char_app; [len_lia|].
    rewrite !has_app, Hn3, Hs3, He3. reflexivity. }
  unfold argsbound_step. rewrite E1, E2, E3.
  f_equal; [f_equal|].
  - replace (Py.len (name ++ "=" ++ start ++ ":") + Py.len stop + 1)
      with (Py.len ((name ++ "=" ++ start ++ ":" ++ stop) ++ ","))
      by len_lia.
    subst bounds.
    replace ((name ++ "=" ++ start ++ ":" ++ stop) ++ "," ++ rest)
      with (((name ++ "=" ++ start ++ ":" ++ stop) ++ ",") ++ rest)
      by (rewrite !app_assoc; reflexivity).
    apply slice_from_app.
  - f_equal. subst bounds. rewrite !app_assoc. apply slice_to_app.
  - f_equal; [f_equal; f_equal|].
    + replace (Py.len name + 1) with (Py.len (name ++ "="))
        by len_lia.
      subst bounds.
      replace ((name ++ "=" ++ start ++ ":" ++ stop) ++ "," ++ rest)
        with ((name ++ "=") ++ start ++ (":" ++ stop ++ "," ++ rest))
        by (rewrite !app_assoc; reflexivity).
      apply slice_middle.
    + replace (Py.len (name ++ "=") + Py.len start + 1)
        with (Py.len (name ++ "=" ++ start ++ ":"))
        by len_lia.
      subst bounds.
      replace ((name ++ "=" ++ start ++ ":" ++ stop) ++ "," ++ rest)
        with ((name ++ "=" ++ start ++ ":") ++ stop ++ ("," ++ rest))
        by (rewrite !app_assoc; reflexivity).
      apply slice_middle.
Qed.

Lemma render_bounds_cons (d d' : dimension) (ds : list dimension) :
  render_bounds (d :: d' :: ds)
  = render_dim d ++ "," ++ render_bounds (d' :: ds).
Proof. reflexivity. Qed.

Lemma cnt_render_dim (d : dimension) :
  wf_dim d = true -> cnt "=" (render_dim d) = 1%nat.
Proof.
  unfold wf_dim. intros H.
  apply andb_true_iff in H as [H He]. apply andb_true_iff in H as [Hn Hs].
  unfold render_dim. rewrite !cnt_app.
  rewrite (cnt_has _ _ (all_chars_has bound_char "=" _ eq_refl Hn)).
  rewrite (cnt_has _ _ (all_chars_has bound_char "=" _ eq_refl Hs)).
  rewrite (cnt_has _ _ (all_chars_has end_char "=" _ eq_refl He)).
  reflexivity.
Qed.

Lemma cnt_render_bounds (ds : list dimension) :
  forallb wf_dim ds = true -> cnt "=" (render_bounds ds) = List.length ds.
Proof.
  induction ds as [|d ds IH]; intros H; [reflexivity|].
  cbn [forallb] in H. apply andb_true_iff in H as [Hd Hds].
  destruct ds as [|d' ds].
  - cbn. now apply cnt_render_dim.
  - rewrite render_bounds_cons, !cnt_app, (cnt_render_dim d Hd), (IH Hds).
    reflexivity.
Qed.

Lemma run_clauses (ds : list dimension) :
  ds <> [] -> forallb wf_dim ds = true ->
  forall (i : nat) (args ab : string),
    fold_left argsbound_step (seq i (List.length ds))
      (render_bounds ds ++ ",", args, ab)
    = ("",
       (if (i =? 0)%nat then args else args ++ ",")
       ++ String.concat "," (map dm_name ds),
       (if (i =? 0)%nat then ab else ab ++ ",")
       ++ String.concat "," (bound_exprs ds)).
Proof.
  induction ds as [|d ds IH]; intros Hne Hwf i args ab; [congruence|].
  cbn [forallb] in Hwf. apply andb_true_iff in Hwf as [Hd Hds].
  cbn [List.length seq fold_left].
  destruct ds as [|d' ds].
  - cbn [render_bounds map String.concat].
    change (render_dim d ++ ",") with (render_dim d ++ "," ++ "").
    rewrite (argsbound_step_clause d "" args ab i Hd).
    cbn [List.length seq fold_left bound_exprs flat_map List.app String.concat].
    f_equal. now rewrite !app_assoc.
  - rewrite render_bounds_cons.
    replace ((render_dim d ++ "," ++ render_bounds (d' :: ds)) ++ ",")
      with (render_dim d ++ "," ++ (render_bounds (d' :: ds) ++ ","))
      by (rewrite !app_assoc; reflexivity).
    rewrite (argsbound_step_clause d _ args ab i Hd).
    rewrite IH by (auto; congruence). cbn [Nat.eqb].
    f_equal; [f_equal|]; norm_app; reflexivity.
Qed.

(** X4: on a list of well-formed clauses [name=start:end] (no [=], [:]
    or [,] in a name or a start expression, no [=] or [,] in an end
    expression) the bounds parser returns the names joined by commas and
    the start and end expressions, in order, joined by commas; blanks are
    kept as written. *)
Theorem find_argsbound_wellformed (ds : list dimension) :
  forallb wf_dim ds = true ->
  find_argsbound (render_bounds ds)
  = (String.concat "," (map dm_name ds), String.concat "," (bound_exprs ds)).
Proof.
  intros Hwf. destruct ds as [|d ds]; [reflexivity|].
  unfold find_argsbound.
  rewrite count_char, cnt_app, (cnt_render_bounds _ Hwf).
  replace (List.length (d :: ds) + cnt "=" ",")%nat with (List.length (d :: ds))
    by (cbn; lia).
  rewrite run_clauses by (auto; congruence). reflexivity.
Qed.

Lemma find_argsbound_wellformed_witness :
  find_argsbound "e=0:r->nelem, d=0:ncomp, i=0:r->elemsize"
  = ("e, d, i", "0,r->nelem,0,ncomp,0,r->elemsize").
Proof.
  apply (find_argsbound_wellformed
           [mkDim "e" "0" "r->nelem"; mkDim " d" "0" "ncomp";
            mkDim " i" "0" "r->elemsize"]).
  reflexivity.
Defined.

(** ** More on the emitter and on the argument parser *)

(** X5: the kernel text of an invocation exists for one, two or three
    dimensions only: with more than three, reading the table of index
    sources past its end raises IndexError, and that is the only
    exception the emitter can raise. *)
Theorem kernel_text_dimension_limit
  (kname args template : string) (parts : list string) :
  parts <> [] ->
  (kernel_text kname parts args template = Raise IndexError
   <-> (3 < List.length parts)%nat)
  /\ ((exists text, kernel_text kname parts args template = Ok text)
      <-> (List.length parts <= 3)%nat).
Proof.
  intros Hne.
  destruct parts as [|p0 [|p1 [|p2 [|p3 ps]]]]; [congruence| | | |].
  - split; split; intros H;
      [ discriminate H | cbn in H; lia | cbn; lia | eexists; reflexivity ].
  - split; split; intros H;
      [ discriminate H | cbn in H; lia | cbn; lia | eexists; reflexivity ].
  - split; split; intros H;
      [ discriminate H | cbn in H; lia | cbn; lia | eexists; reflexivity ].
  - assert (E : kernel_text kname (p0 :: p1 :: p2 :: p3 :: ps) args template
                = Raise IndexError) by reflexivity.
    split; split; intros H; try (cbn [List.length]; lia); try exact E.
    + destruct H as [text H]. rewrite E in H. discriminate.
    + cbn [List.length] in H. lia.
Qed.

Lemma kernel_text_dimension_limit_witness :
  (kernel_text "k" ["a"; "b"; "c"; "d"] "int *x" " x[a]=b; }" = Raise IndexError
   <-> (3 < 4)%nat)
  /\ ((exists text,
         kernel_text "k" ["a"; "b"; "c"; "d"] "int *x" " x[a]=b; }" = Ok text)
      <-> (4 <= 3)%nat).
Proof.
  apply (kernel_text_dimension_limit "k" "int *x" " x[a]=b; }"
           ["a"; "b"; "c"; "d"]).
  discriminate.
Defined.

(** X6: the index variables of a kernel with one dimension and with three:
    the only dimension of a one-dimensional kernel is bound from
    [threadIdx.x]; the dimensions of a three-dimensional kernel from
    [blockIdx.x], [blockIdx.y] and [threadIdx.x], in that order. *)
Theorem bindings_one_and_three_dimensions (p0 p1 p2 : string) :
  bindings [p0]
  = Ok ("   int " ++ p0 ++ " = " ++ "threadIdx.x" ++ ";      " ++ nl)
  /\ bindings [p0; p1; p2]
     = Ok ("   int " ++ p0 ++ " = " ++ "blockIdx.x" ++ ";      " ++ nl
           ++ "   int " ++ p1 ++ " = " ++ "blockIdx.y" ++ ";      " ++ nl
           ++ "   int " ++ p2 ++ " = " ++ "threadIdx.x" ++ ";      " ++ nl).
Proof.
  unfold bindings, bindings_from, partsinit_of.
  cbn [List.length Nat.eqb item nth_error bind setitem nth].
  split; f_equal; norm_app; reflexivity.
Qed.

Lemma getitem_get (i : Z) (s : string) (c : ascii) :
  Py.getitem i s = Some c -> exists n, String.get n s = Some c.
Proof.
  unfold Py.getitem.
  destruct ((_ <? 0) || (Py.len s <=? _)); [discriminate | eauto].
Qed.

Lemma find_all_false {A : Type} (f : A -> bool) (l : list A) :
  (forall x, f x = false) -> List.find f l = None.
Proof.
  intros H. induction l as [|x l IH]; cbn [List.find]; [reflexivity|].
  now rewrite H.
Qed.

Lemma repeat_step_fixed {A : Type} (f : A -> A) (x : A) (n : nat) :
  f x = x -> repeat_step n f x = x.
Proof. intros H. induction n as [|n IH]; cbn [repeat_step]; congruence. Qed.

(** X7: when the argument text holds no space, [*] or [&] at all, the
    parser finds no name: it returns the empty string, however many
    comma-separated entries the text has. *)
Theorem find_argslist_without_separator (args : string) :
  all_chars (fun c => negb (is_sep c)) args = true ->
  find_argslist args = "".
Proof.
  intros H. unfold find_argslist.
  assert (Hc : all_chars (fun c => negb (is_sep c)) (args ++ ")") = true).
  { rewrite all_chars_app, H. reflexivity. }
  rewrite repeat_step_fixed; [reflexivity|].
  unfold argslist_step. rewrite find_all_false; [reflexivity|].
  intros j. unfold sep_at.
  destruct (Py.getitem _ (args ++ ")")) as [c|] eqn:E; [|reflexivity].
  destruct (getitem_get _ _ _ E) as [n Hn].
  apply negb_true_iff. exact (get_all_chars _ _ _ _ Hc Hn).
Qed.

Lemma find_argslist_without_separator_witness :
  find_argslist "n,m,uu" = "".
Proof. apply (find_argslist_without_separator "n,m,uu"). reflexivity. Defined.

(** ** The file stem and the files of [main] *)

Lemma has_replace_char (c : ascii) (new s : string) :
  has c new = false -> has c (Py.replace (String c "") new s) = false.
Proof.
  intros Hn. unfold Py.replace. induction s as [|d s IH]; [reflexivity|].
  cbn [Py.replace_skip String.length Nat.pred]. rewrite startswith_char.
  destruct (Ascii.eqb_spec c d) as [->|Hne].
  - now rewrite has_app, Hn, IH.
  - cbn [has]. rewrite IH, orb_false_r.
    destruct (Ascii.eqb_spec d c); [congruence | reflexivity].
Qed.

Lemma rfind_nat_char (c : ascii) (s : string) :
  match Py.rfind_nat (String c "") s with
  | Some k => (k < String.length s)%nat /\ has c (Py.drop (S k) s) = false
  | None => has c s = false
  end.
Proof.
  induction s as [|d s IH]; [reflexivity|].
  cbn [Py.rfind_nat]. destruct (Py.rfind_nat (String c "") s) as [k|].
  - cbn [Py.drop String.length]. destruct IH. split; [lia | assumption].
  - rewrite startswith_char. destruct (Ascii.eqb_spec c d) as [->|Hne].
    + cbn [Py.drop String.length]. split; [lia|]. now destruct s.
    + cbn [has]. rewrite IH, orb_false_r.
      destruct (Ascii.eqb_spec d c); [congruence | reflexivity].
Qed.

(** X8: whatever the path, the stem used in the generated names holds
    neither a hyphen nor a slash. *)
Theorem filestem_clean (path : string) :
  has "-" (filestem path) = false /\ has "/" (filestem path) = false.
Proof.
  unfold filestem, Py.slice_from.
  set (f := Py.replace "-" "_" (Py.slice_to (Py.find "." path) path)).
  assert (Hf : has "-" f = false) by (apply has_replace_char; reflexivity).
  split; [now apply has_drop|].
  unfold Py.rfind. pose proof (rfind_nat_char "/" f) as H.
  destruct (Py.rfind_nat "/" f) as [k|].
  - destruct H as [Hk H]. rewrite clamp_inside by (unfold Py.len; lia).
    replace (Z.to_nat (Z.of_nat k + 1)) with (S k) by lia. exact H.
  - now apply has_drop.
Qed.

Lemma slice_to_minus_one (p : string) (c : ascii) :
  Py.slice_to (-1) (p ++ String c "") = p.
Proof.
  unfold Py.slice_to, Py.clamp. cbn [Z.ltb Z.compare].
  rewrite len_app. change (Py.len (String c "")) with 1.
  pose proof (len_nonneg p).
  replace (Z.max (-1 + (Py.len p + 1)) 0) with (Py.len p) by lia.
  unfold Py.len. rewrite Nat2Z.id. apply take_app.
Qed.

(** X9: for a path without a dot the stem is cut one character short: the
    slice [path[:path.find(".")]] then ends at index -1. *)
Theorem filestem_without_dot (p : string) (c : ascii) :
  has "." (p ++ String c "") = false ->
  has "/" p = false -> has "-" p = false ->
  filestem (p ++ String c "") = p.
Proof.
  intros H1 H2 H3. unfold filestem.
  rewrite (find_char_none "." _ H1), slice_to_minus_one.
  rewrite (replace_char_absent "-" "_" p H3), (rfind_char_none "/" p H2).
  apply slice_from_0.
Qed.

Lemma filestem_without_dot_witness : filestem "kernel" = "kerne".
Proof. apply (filestem_without_dot "kerne" "l"); reflexivity. Defined.

(** X10: for a file name [base.ext] whose base holds no dot, slash or
    hyphen, the stem is the base. *)
Theorem filestem_of_plain_name (base ext : string) :
  has "." base = false -> has "/" base = false -> has "-" base = false ->
  filestem (base ++ "." ++ ext) = base.
Proof. apply filestem_simple. Qed.

Lemma filestem_of_plain_name_witness : filestem "ceed_magma.c" = "ceed_magma".
Proof. apply (filestem_of_plain_name "ceed_magma" "c"); reflexivity. Defined.

Lemma slice_to_nat (n : nat) (s : string) :
  (n <= String.length s)%nat -> Py.slice_to (Z.of_nat n) s = Py.take n s.
Proof.
  intros H. unfold Py.slice_to, Py.len.
  rewrite clamp_inside by lia. now rewrite Nat2Z.id.
Qed.

(** X11: for a path that begins with a dot, as [./src.c] or
    [../dir/src.c], the text before the first dot is empty: the stem is
    empty, the output files are named [_tmp.c] and [_cuda.cu], and the
    generated names end in an underscore. *)
Theorem stem_of_path_starting_with_dot (rest : string) (k : nat) :
  Py.slice_to (Py.find "." (String "." rest)) (String "." rest) ++ "_tmp.c"
  = "_tmp.c"
  /\ Py.slice_to (Py.find "." (String "." rest)) (String "." rest) ++ "_cuda.cu"
     = "_cuda.cu"
  /\ filestem (String "." rest) = ""
  /\ kname_of k (filestem (String "." rest))
     = "magma_template_" ++ Py.str k ++ "_".
Proof.
  assert (E : Py.slice_to (Py.find "." (String "." rest)) (String "." rest) = "")
    by reflexivity.
  assert (F : filestem (String "." rest) = "").
  { unfold filestem. rewrite E. reflexivity. }
  rewrite E, F. repeat split.
Qed.

(** ** What the scanner does with the source *)

Lemma find_nat_of_find (sub s : string) :
  Py.find sub s = -1 -> Py.find_nat sub s = None.
Proof. unfold Py.find. destruct (Py.find_nat sub s); [lia | reflexivity]. Qed.

Lemma occ_none (sub s : string) : Py.find_nat sub s = None -> occ sub s = 0%nat.
Proof.
  induction s as [|c s IH]; [reflexivity|]. cbn [Py.find_nat occ].
  destruct (Py.startswith sub (String c s)); [discriminate|].
  destruct (Py.find_nat sub s); [discriminate|]. intros _. now rewrite IH.
Qed.

(** X12: a source without the marker is copied as it is to the host text;
    nothing is written to the kernel text and no name is generated. *)
Theorem translate_without_marker (fname source : string) :
  Py.find marker source = -1 ->
  translate fname source = (mkState source source "" [], None).
Proof.
  intros H. apply find_nat_of_find in H. unfold translate.
  rewrite count_marker_occ, (occ_none _ _ H). reflexivity.
Qed.

Lemma translate_without_marker_witness :
  translate "src" "int main() { return 0; }"
  = (mkState "int main() { return 0; }" "int main() { return 0; }" "" [], None).
Proof.
  apply (translate_without_marker "src" "int main() { return 0; }").
  reflexivity.
Defined.

(** X13: when the input file can be read and holds no marker, and both
    output files can be opened, [main] announces the two output files on
    standard output, writes the text it read unchanged to the [_tmp.c]
    file and nothing to the [_cuda.cu] file, leaves the error channel
    alone and exits with status 0. *)
Theorem main_without_marker (script path source : string) (w : world) :
  read_text (files w) path = Ok source ->
  open_write (files w) (Py.slice_to (Py.find "." path) path ++ "_tmp.c") = None ->
  open_write (files w) (Py.slice_to (Py.find "." path) path ++ "_cuda.cu") = None ->
  Py.find marker source = -1 ->
  main [script; path] w
  = (mkWorld
       (wrote (Py.slice_to (Py.find "." path) path ++ "_cuda.cu") ""
          (wrote (Py.slice_to (Py.find "." path) path ++ "_tmp.c") source
             (files w)))
       (stdout w ++ script ++ " " ++ path ++ " --> "
        ++ (Py.slice_to (Py.find "." path) path ++ "_tmp.c") ++ " "
        ++ (Py.slice_to (Py.find "." path) path ++ "_cuda.cu") ++ nl)
       (stderr w), 0).
Proof.
  intros Hr Hc Hcu Hm. unfold main. cbn [List.length Nat.eqb negb nth].
  rewrite Hr, Hc, Hcu, (translate_without_marker _ _ Hm). reflexivity.
Qed.

Lemma main_without_marker_witness :
  main ["gccm.py"; "a.c"] (mkWorld one_file "" "")
  = (mkWorld (wrote "a_cuda.cu" "" (wrote "a_tmp.c" "int x;" one_file))
             ("gccm.py a.c --> a_tmp.c a_cuda.cu" ++ nl) "", 0).
Proof.
  apply (main_without_marker "gccm.py" "a.c" "int x;" (mkWorld one_file "" ""));
    reflexivity.
Defined.

Lemma find_nat_take (sub s : string) :
  sub <> "" ->
  forall k, Py.find_nat sub s = Some k -> Py.find_nat sub (Py.take k s) = None.
Proof.
  intros Hsub. induction s as [|c s IH]; intros k H.
  - cbn [Py.find_nat] in H. destruct sub; [congruence | discriminate].
  - cbn [Py.find_nat] in H.
    destruct (Py.startswith sub (String c s)) eqn:E.
    + injection H as <-. destruct sub; [congruence | reflexivity].
    + destruct (Py.find_nat sub s) as [j|] eqn:Ej; [|discriminate].
      injection H as <-. cbn [Py.take Py.find_nat].
      destruct (Py.startswith sub (String c (Py.take j s))) eqn:E'.
      * apply (startswith_weaken _ _ (Py.drop j s)) in E'.
        cbn [append] in E'. rewrite take_drop in E'. congruence.
      * now rewrite (IH j eq_refl).
Qed.

Lemma marker_found (p : string) (i : nat) :
  Py.find_nat marker p = Some i ->
  Py.slice_to (Z.of_nat i) p = Py.take i p
  /\ Py.slice_from (Z.of_nat i + 14) p = Py.drop (i + 14) p
  /\ p = Py.take i p ++ marker ++ Py.drop (i + 14) p.
Proof.
  intros H. destruct (find_nat_split _ _ _ H) as (t & Hs & Hl & Hd).
  assert (Hlen : (i + 14 <= String.length p)%nat).
  { rewrite Hs, !length_app, Hl. cbn [marker String.length]. lia. }
  split; [apply slice_to_nat; lia|]. split.
  - replace (Z.of_nat i + 14) with (Z.of_nat (i + 14)) by lia.
    now apply slice_from_nat.
  - rewrite <- drop_drop, Hd.
    change 14%nat with (String.length marker). rewrite drop_app.
    rewrite <- Hd. symmetry. apply take_drop.
Qed.


(** ** When the marker search fails *)

Lemma occ_skip_prefix (sub s : string) :
  forall k, Py.find_nat sub s = Some k -> occ sub s = occ sub (Py.drop k s).
Proof.
  induction s as [|c s IH]; intros k H; cbn [Py.find_nat] in H.
  - destruct (Py.startswith sub ""); [|discriminate]. now injection H as <-.
  - destruct (Py.startswith sub (String c s)) eqn:E.
    + now injection H as <-.
    + destruct (Py.find_nat sub s) as [j|] eqn:Ej; [|discriminate].
      injection H as <-. cbn [occ Py.drop]. rewrite E. now apply IH.
Qed.

Lemma occ_marker_head (t : string) :
  occ marker (marker ++ t) = S (occ marker t).
Proof. rewrite <- !count_marker_occ. reflexivity. Qed.

(** A text that ends in a character foreign to [sub] hides what follows
    it from [startswith]. *)
Lemma startswith_stop (c : ascii) (b : string) :
  forall sub x, has c sub = false ->
    Py.startswith sub (x ++ String c b) = Py.startswith sub (x ++ String c "").
Proof.
  induction sub as [|s0 sub IH]; intros x H; [reflexivity|].
  cbn [has] in H. apply orb_false_iff in H as [H0 Hs].
  destruct x as [|x0 x]; cbn [append Py.startswith].
  - now rewrite H0.
  - now rewrite (IH x Hs).
Qed.

Lemma occ_app_stop (sub b : string) (c : ascii) :
  has c sub = false ->
  forall x, occ sub (x ++ String c b)
            = (occ sub (x ++ String c "") + occ sub b)%nat.
Proof.
  intros H. induction x as [|x0 x IH].
  - pose proof (startswith_stop c b sub "" H) as E. cbn [append] in E.
    cbn [append occ]. rewrite E. lia.
  - pose proof (startswith_stop c b sub (String x0 x) H) as E.
    cbn [append] in E. cbn [append occ]. rewrite E, IH. lia.
Qed.

(** With a positive counter the scan stops on a closing delimiter only. *)
Lemma match_scan_char (left right : ascii) (s : string) :
  forall i num e,
    1 <= num -> match_scan left right s i num = Some e ->
    exists a b, s = a ++ String right b /\ e = i + Py.len a + 1.
Proof.
  induction s as [|c s IH]; intros i num e Hn H; cbn [match_scan] in H;
    [discriminate|].
  destruct (Ascii.eqb_spec c right) as [->|Hr].
  - destruct (Z.eqb_spec (num - 1) 0).
    + injection H as <-. exists "", s. split; [reflexivity|].
      unfold Py.len. cbn. lia.
    + assert (Hn' : 1 <= num - 1) by lia.
      destruct (IH _ _ _ Hn' H) as (a & b & -> & ->).
      exists (String right a), b. split; [reflexivity|].
      unfold Py.len. cbn [String.length]. lia.
  - assert (Hn' : 1 <= (if Ascii.eqb c left then num + 1 else num))
      by (destruct (Ascii.eqb c left); lia).
    destruct (Z.eqb_spec (if Ascii.eqb c left then num + 1 else num) 0);
      [lia|].
    destruct (IH _ _ _ Hn' H) as (a & b & -> & ->).
    exists (String c a), b. split; [reflexivity|].
    unfold Py.len. cbn [String.length]. lia.
Qed.

Lemma slice_from_len (s : string) : Py.slice_from (Py.len s) s = "".
Proof. pose proof (slice_from_app s "") as H. now rewrite app_nil_r in H. Qed.

Lemma slice_to_len (s : string) : Py.slice_to (Py.len s) s = s.
Proof. pose proof (slice_to_app s "") as H. now rewrite app_nil_r in H. Qed.

(** The span dropped behind a marker is the whole buffer, or it ends in
    a closing brace. *)
Lemma rest_and_span_cases (q : string) :
  (rest_of q = "" /\ consumed_span q = q)
  \/ (exists x b, q = (x ++ "}") ++ b
                  /\ consumed_span q = x ++ "}" /\ rest_of q = b).
Proof.
  unfold rest_of, consumed_span, find_matching.
  assert (Hf : -1 <= Py.find "{" q < Py.len q).
  { unfold Py.find, Py.len. destruct (Py.find_nat "{" q) as [k|] eqn:E.
    - apply find_nat_lt in E; [lia | discriminate].
    - lia. }
  set (i3 := Py.find "{" q) in *.
  destruct (match_scan "{" "}" (Py.slice_from (i3 + 1) q) (i3 + 1) 1)
    as [e|] eqn:E.
  - right. destruct (match_scan_char _ _ _ _ 1 _ ltac:(lia) E)
      as (a & b & Hs & ->).
    unfold Py.slice_from in Hs. rewrite clamp_inside in Hs by lia.
    set (m := Z.to_nat (i3 + 1)) in *.
    assert (Hm : String.length (Py.take m q) = m).
    { rewrite length_take. unfold Py.len in Hf. lia. }
    assert (Hq : q = ((Py.take m q ++ a) ++ "}") ++ b).
    { rewrite <- (take_drop m q) at 1. rewrite Hs, !app_assoc. reflexivity. }
    exists (Py.take m q ++ a), b.
    replace (i3 + 1 + Py.len a + 1) with (Py.len ((Py.take m q ++ a) ++ "}"))
      by (rewrite !len_app; unfold Py.len; rewrite Hm; cbn [String.length]; lia).
    split; [exact Hq|]. split.
    + rewrite Hq at 2. apply slice_to_app.
    + rewrite Hq at 2. apply slice_from_app.
  - left. split; [apply slice_from_len | apply slice_to_len].
Qed.

(** A successful iteration whose dropped span holds no marker uses up
    exactly the marker it found. *)
Lemma body_occ_exact (fname : string) (k : nat) (st st' : state) :
  body fname k st = (st', None) ->
  marker_in_span (prog st) = false ->
  (occ marker (prog st') + 1)%nat = occ marker (prog st).
Proof.
  intros H Hspan.
  destruct (body_cases fname k st)
    as [[_ Hb]|(i & st1 & o & Hi & Hb & _ & Hp & _)];
    rewrite Hb in H; [discriminate|].
  injection H as -> _. rewrite Hp.
  unfold marker_in_span in Hspan. rewrite Hi in Hspan.
  apply negb_false_iff, Z.eqb_eq, find_nat_of_find in Hspan.
  apply occ_none in Hspan.
  destruct (marker_found _ _ Hi) as (_ & H2 & H3).
  rewrite (occ_skip_prefix _ _ _ Hi).
  destruct (find_nat_split _ _ _ Hi) as (t & _ & _ & Hd).
  assert (Ht : Py.drop (i + 14) (prog st) = t).
  { rewrite <- drop_drop, Hd. change 14%nat with (String.length marker).
    apply drop_app. }
  rewrite Hd, occ_marker_head. rewrite H2, Ht in *.
  destruct (rest_and_span_cases t) as [[Hr Hc]|(x & b & Hq & Hc & Hr)].
  - rewrite Hr. rewrite Hc in Hspan. cbn [occ]. lia.
  - rewrite Hr. rewrite Hc in Hspan. rewrite Hq.
    rewrite app_assoc. cbn [append].
    rewrite (occ_app_stop marker b "}" eq_refl x), Hspan. lia.
Qed.

Lemma loop_clean_or_marker (fname : string) (ks : list nat) :
  forall st st', loop fname ks st = (st', None) ->
    (occ marker (prog st') + List.length ks)%nat = occ marker (prog st)
    \/ exists a k b st_k,
         ks = (a ++ k :: b)%list
         /\ loop fname a st = (st_k, None)
         /\ marker_in_span (prog st_k) = true.
Proof.
  induction ks as [|k ks IH]; intros st st' H; cbn [loop] in H.
  - injection H as <-. left. cbn. lia.
  - destruct (body fname k st) as [st1 [e|]] eqn:Hb; [discriminate|].
    destruct (marker_in_span (prog st)) eqn:Hspan.
    + right. exists [], k, ks, st. auto.
    + pose proof (body_occ_exact _ _ _ _ Hb Hspan) as H1.
      destruct (IH _ _ H) as [H2|(a & j & b & st_k & -> & Hl & Hm)].
      * left. cbn [List.length]. lia.
      * right. exists (k :: a), j, b, st_k. cbn [List.app loop].
        rewrite Hb. auto.
Qed.

Lemma loop_failure_point (fname : string) (ks : list nat) :
  forall st st', loop fname ks st = (st', Some ValueError) ->
    exists a k b st_j,
      ks = (a ++ k :: b)%list
      /\ loop fname a st = (st_j, None)
      /\ Py.find_nat marker (prog st_j) = None.
Proof.
  induction ks as [|k ks IH]; intros st st' H; cbn [loop] in H; [discriminate|].
  destruct (body_cases fname k st)
    as [[Hn Hb]|(i & st1 & o & _ & Hb & Ho & _)]; rewrite Hb in H.
  - exists [], k, ks, st. auto.
  - destruct Ho as [->| ->]; [|discriminate].
    destruct (IH _ _ H) as (a & j & b & st_j & -> & Hl & Hn).
    exists (k :: a), j, b, st_j. cbn [List.app loop]. rewrite Hb. auto.
Qed.

Lemma seq_prefix (a b : list nat) :
  forall s n, seq s n = (a ++ b)%list -> a = seq s (List.length a).
Proof.
  induction a as [|x a IH]; intros s n H; [reflexivity|].
  destruct n as [|n]; [discriminate|]. cbn [seq List.app] in H.
  injection H as <- H. cbn [List.length seq]. f_equal. now apply (IH _ n).
Qed.

Lemma seq_prefix_length (a : list nat) (k : nat) (b : list nat) (n : nat) :
  seq 0 n = (a ++ k :: b)%list -> (List.length a < n)%nat.
Proof.
  intros H. apply (f_equal (@List.length nat)) in H.
  rewrite length_seq, List.length_app in H. cbn [List.length] in H. lia.
Qed.

(** X15: the marker search fails only for the reason of C10: if a run
    ends with the ValueError of [prog.index], then at some iteration that
    was reached the marker stood inside the span which that iteration
    dropped. *)
Theorem marker_search_fails_only_after_marker_in_span
  (fname source : string) :
  snd (translate fname source) = Some ValueError ->
  exists k st,
    (k < Py.count marker source)%nat
    /\ loop fname (seq 0 k) (init source) = (st, None)
    /\ marker_in_span (prog st) = true.
Proof.
  destruct (translate_knames fname source) as [_ ->].
  destruct (loop fname (seq 0 (Py.count marker source)) (init source))
    as [st' [e|]] eqn:Hl; cbn [snd]; [|discriminate].
  intros H. injection H as ->.
  destruct (loop_failure_point _ _ _ _ Hl) as (a & j & b & st_j & Hs & Ha & Hn).
  pose proof (seq_prefix_length _ _ _ _ Hs) as Hlen.
  pose proof (seq_prefix _ _ _ _ Hs) as Hseq.
  apply occ_none in Hn.
  destruct (loop_clean_or_marker _ _ _ _ Ha)
    as [Hc|(a1 & k & b1 & st_k & Ha1 & Hl1 & Hm)].
  - cbn [init prog] in Hc. rewrite <- (count_marker_occ source) in Hc. lia.
  - rewrite Ha1 in Hseq, Hlen.
    pose proof (seq_prefix _ _ _ _ (eq_sym Hseq)) as Hseq1.
    rewrite List.length_app in Hseq. rewrite List.length_app in Hlen.
    cbn [List.length] in Hlen.
    exists (List.length a1), st_k. rewrite <- Hseq1. repeat split; [lia | | ]; auto.
Qed.

Lemma marker_search_fails_only_after_marker_in_span_witness :
  exists k st,
    (k < Py.count marker marker_in_body)%nat
    /\ loop "src" (seq 0 k) (init marker_in_body) = (st, None)
    /\ marker_in_span (prog st) = true.
Proof.
  apply (marker_search_fails_only_after_marker_in_span "src" marker_in_body).
  reflexivity.
Defined.

(** ** Indexing that cannot fail *)

(** X16: the inner loop of [find_argslist] never reads outside the text:
    for every [j] of [range(i1)] the character [args[i1-j]] exists, so
    the parser cannot raise IndexError. *)
Theorem find_argslist_reads_inside (args : string) (j : Z) :
  In j (Py.range (if Py.find "," args =? -1 then Py.find ")" args
                  else Py.find "," args)) ->
  Py.getitem ((if Py.find "," args =? -1 then Py.find ")" args
               else Py.find "," args) - j) args <> None.
Proof. apply find_argslist_index_in_range. Qed.

Lemma find_argslist_reads_inside_witness :
  Py.getitem ((if Py.find "," "int n)" =? -1 then Py.find ")" "int n)"
               else Py.find "," "int n)") - 2) "int n)" <> None.
Proof.
  apply (find_argslist_reads_inside "int n)" 2).
  vm_compute. do 2 right. left. reflexivity.
Defined.

Lemma split_nonempty (sep : ascii) (s : string) : Py.split sep s <> [].
Proof.
  induction s as [|c s IH]; cbn [Py.split]; [discriminate|].
  destruct (Ascii.eqb c sep); [discriminate|].
  destruct (Py.split sep s); discriminate.
Qed.

(** X17: whatever the bounds text, the list of dimension names taken from
    it is never empty, so the launch geometry is always produced: the
    names read by its three branches exist. *)
Theorem geometry_of_parsed_bounds (bounds : string) :
  Py.split "," (fst (find_argsbound bounds)) <> []
  /\ exists text,
       geometry (Py.split "," (fst (find_argsbound bounds))) = Ok text.
Proof.
  pose proof (split_nonempty "," (fst (find_argsbound bounds))) as H.
  split; [exact H|].
  destruct (Py.split "," (fst (find_argsbound bounds)))
    as [|p0 [|p1 [|p2 ps]]]; [congruence| | |]; eexists; reflexivity.
Qed.

(** ** What each iteration writes, and under which name *)

(** One iteration, in terms of the invocation it meets. *)
Lemma body_eq (fname : string) (k : nat) (st : state) :
  body fname k st
  = match Py.find_nat marker (prog st) with
    | None => (st, Some ValueError)
    | Some i =>
        let q := Py.slice_from (Z.of_nat i + 14) (prog st) in
        let host := cfile st ++ Py.slice_to (Z.of_nat i) (prog st)
                    ++ host_fragment (kname_of k fname) q in
        let names := (knames st ++ [kname_of k fname])%list in
        match kernel_fragment (kname_of k fname) q with
        | Ok t => (mkState (rest_of q) host (cufile st ++ t) names, None)
        | Raise e => (mkState (rest_of q) host (cufile st) names, Some e)
        end
    end.
Proof.
  unfold body, host_fragment, kernel_fragment, parts_of.
  destruct (Py.find_nat marker (prog st)) as [i|]; [|reflexivity].
  cbv zeta.
  destruct (find_argsbound (bounds_of (Py.slice_from (Z.of_nat i + 14) (prog st))))
    as [boundvars boundargs]. cbn [fst snd].
  rewrite !app_assoc. reflexivity.
Qed.

Lemma invocation_stretch (p : string) (i : nat) :
  Py.find_nat marker p = Some i ->
  p = Py.slice_to (Z.of_nat i) p ++ marker
      ++ consumed_span (Py.slice_from (Z.of_nat i + 14) p)
      ++ rest_of (Py.slice_from (Z.of_nat i + 14) p)
  /\ Py.find marker (Py.slice_to (Z.of_nat i) p) = -1.
Proof.
  intros Hi. destruct (marker_found _ _ Hi) as (H1 & H2 & H3).
  rewrite H1, H2. split.
  - destruct (rest_and_span (Py.drop (i + 14) p)) as (n & -> & ->).
    rewrite take_drop. exact H3.
  - unfold Py.find. rewrite find_nat_take; [reflexivity | discriminate | exact Hi].
Qed.

(** A loop that completes has met [n] invocations, in the order of the
    text, and has written for the one of ordinal [j] the fragments under
    the name of [j]. *)
Lemma loop_emits (fname : string) (n : nat) :
  forall k st st',
    loop fname (seq k n) st = (st', None) ->
    List.length (invocations n (prog st)) = n
    /\ prog st = source_text (invocations n (prog st)) ++ prog st'
    /\ cfile st' = cfile st ++ host_text fname k (invocations n (prog st))
    /\ (exists t, cu_text fname k (invocations n (prog st)) = Ok t
                  /\ cufile st' = cufile st ++ t)
    /\ Forall (fun g => Py.find marker (fst g) = -1)
         (invocations n (prog st)).
Proof.
  induction n as [|n IH]; intros k st st' H; cbn [seq loop] in H.
  - injection H as <-. cbn. rewrite !app_nil_r.
    repeat split; [exists ""; now rewrite app_nil_r | constructor].
  - rewrite body_eq in H. cbn [invocations].
    destruct (Py.find_nat marker (prog st)) as [i|] eqn:Hi; [|discriminate].
    cbv zeta in H.
    destruct (kernel_fragment (kname_of k fname)
                (Py.slice_from (Z.of_nat i + 14) (prog st))) as [t|e] eqn:Hk;
      [|discriminate].
    destruct (IH _ _ _ H) as (H1 & H2 & H3 & (ts & H4 & H5) & H6).
    cbn [prog cfile cufile] in H1, H2, H3, H4, H5, H6.
    destruct (invocation_stretch _ _ Hi) as [Hs Hm].
    cbn [List.length source_text host_text cu_text]. repeat split.
    + now rewrite H1.
    + rewrite !app_assoc, <- H2. exact Hs.
    + rewrite H3, !app_assoc. reflexivity.
    + exists (t ++ ts). rewrite Hk, H4. cbn [bind].
      split; [reflexivity|]. rewrite H5, app_assoc. reflexivity.
    + constructor; [exact Hm | exact H6].
Qed.

(** Whatever the end of the loop, the host text is made of the fragments
    of the first [m] invocations, under the names of their ordinals. *)
Lemma loop_host (fname : string) (n : nat) :
  forall k st, exists m,
    (m <= n)%nat
    /\ List.length (invocations m (prog st)) = m
    /\ cfile (fst (loop fname (seq k n) st))
       = cfile st ++ host_text fname k (invocations m (prog st))
    /\ (snd (loop fname (seq k n) st) = None -> m = n).
Proof.
  induction n as [|n IH]; intros k st; cbn [seq loop].
  - exists 0%nat. cbn. rewrite app_nil_r. auto.
  - rewrite body_eq.
    destruct (Py.find_nat marker (prog st)) as [i|] eqn:Hi.
    + cbv zeta.
      destruct (kernel_fragment (kname_of k fname)
                  (Py.slice_from (Z.of_nat i + 14) (prog st))) as [t|e].
      * match goal with
        | |- context [loop fname (seq (S k) n) ?s] =>
            destruct (IH (S k) s) as (m & Hm & Hl & Hc & Hn)
        end.
        cbn [prog cfile] in Hl, Hc.
        exists (S m). cbn [invocations]. rewrite Hi.
        cbn [List.length host_text]. rewrite Hl, Hc, ?app_assoc.
        repeat split; [lia | auto].
      * exists 1%nat. cbn [invocations]. rewrite Hi.
        cbn [fst snd cfile List.length host_text].
        rewrite ?app_assoc, ?app_nil_r.
        repeat split; [lia | discriminate].
    + exists 0%nat. cbn. rewrite app_nil_r.
      repeat split; [lia | discriminate].
Qed.

(** C5: the generated names are [magma_template_<ordinal>_<fname>],
    pairwise distinct; the host text is made of the fragments of the
    invocations in the order of the text, the one of ordinal [k]
    (counted from 0) declared and called under the name of [k]; and when
    the run completes, there is one invocation for each of the N markers
    counted, the host text ends with the rest of the source, and the
    kernel text is made of the kernels of the same invocations in the
    same order, the one of ordinal [k] under the name of [k]. *)
Theorem generated_names (fname source : string) :
  (forall k, kname_of k fname = "magma_template_" ++ Py.str k ++ "_" ++ fname)
  /\ NoDup (map (fun k => kname_of k fname) (seq 0 (Py.count marker source)))
  /\ (exists m,
        (m <= Py.count marker source)%nat
        /\ List.length (invocations m source) = m
        /\ cfile (fst (translate fname source))
           = host_text fname 0 (invocations m source)
             ++ match snd (translate fname source) with
                | None => prog (fst (translate fname source))
                | Some _ => ""
                end)
  /\ (forall st,
        translate fname source = (st, None) ->
        List.length (invocations (Py.count marker source) source)
        = Py.count marker source
        /\ cfile st
           = host_text fname 0 (invocations (Py.count marker source) source)
             ++ prog st
        /\ cu_text fname 0 (invocations (Py.count marker source) source)
           = Ok (cufile st)
        /\ knames st
           = map (fun k => kname_of k fname) (seq 0 (Py.count marker source))).
Proof.
  split; [reflexivity|]. split; [apply knames_NoDup|]. split.
  - destruct (loop_host fname (Py.count marker source) 0 (init source))
      as (m & Hm & Hl & Hc & Hn).
    cbn [init prog cfile append] in Hl, Hc.
    exists m. split; [exact Hm|]. split; [exact Hl|].
    unfold translate.
    destruct (loop fname (seq 0 (Py.count marker source)) (init source))
      as [st [e|]]; cbn [fst snd cfile prog] in *.
    + now rewrite app_nil_r.
    + rewrite Hc. reflexivity.
  - intros st H.
    pose proof (translate_knames fname source) as [Hk _].
    rewrite H in Hk. cbn [fst] in Hk.
    unfold translate in H.
    destruct (loop fname (seq 0 (Py.count marker source)) (init source))
      as [st1 [e|]] eqn:Hl; [discriminate|].
    injection H as <-. cbn [prog cfile cufile knames] in *.
    destruct (loop_emits _ _ _ _ _ Hl) as (H1 & _ & H3 & (t & H4 & H5) & _).
    cbn [init prog cfile cufile append] in H1, H3, H4, H5.
    destruct (loop_knames fname (seq 0 (Py.count marker source)) (init source))
      as (m & Hm & Hn & Hc).
    rewrite Hl in Hn, Hc. cbn [fst snd init knames List.app] in Hn, Hc.
    rewrite (Hc eq_refl), length_seq, firstn_seq in Hn by lia.
    repeat split; [exact H1 | now rewrite H3 | now rewrite H4, H5 | exact Hn].
Qed.

Lemma generated_names_witness :
  List.length (invocations (Py.count marker two_templates) two_templates)
  = Py.count marker two_templates
  /\ cfile (fst (translate "src" two_templates))
     = host_text "src" 0
         (invocations (Py.count marker two_templates) two_templates)
       ++ prog (fst (translate "src" two_templates))
  /\ cu_text "src" 0
       (invocations (Py.count marker two_templates) two_templates)
     = Ok (cufile (fst (translate "src" two_templates)))
  /\ knames (fst (translate "src" two_templates))
     = map (fun k => kname_of k "src")
           (seq 0 (Py.count marker two_templates)).
Proof.
  apply (proj2 (proj2 (proj2 (generated_names "src" two_templates)))).
  reflexivity.
Defined.

(** X14: a run that completes accounts for every character of the
    source: the source is, for each invocation in turn, the text before
    its marker, the marker and the span taken behind it, and then the
    rest of the buffer; the host text is, for each invocation in turn,
    the same text before the marker and the generated declaration and
    call, and then the same rest; and no text before a marker holds the
    marker. *)
Theorem translate_accounts_for_source (fname source : string) (st : state) :
  translate fname source = (st, None) ->
  source
  = source_text (invocations (Py.count marker source) source) ++ prog st
  /\ cfile st
     = host_text fname 0 (invocations (Py.count marker source) source)
       ++ prog st
  /\ List.length (invocations (Py.count marker source) source)
     = Py.count marker source
  /\ Forall (fun g => Py.find marker (fst g) = -1)
       (invocations (Py.count marker source) source).
Proof.
  unfold translate.
  destruct (loop fname (seq 0 (Py.count marker source)) (init source))
    as [st1 [e|]] eqn:Hl; [discriminate|].
  intros H. injection H as <-. cbn [prog cfile].
  destruct (loop_emits _ _ _ _ _ Hl) as (H1 & H2 & H3 & _ & H5).
  cbn [init prog cfile append] in H1, H2, H3, H5.
  repeat split; [exact H2 | now rewrite H3 | exact H1 | exact H5].
Qed.

Lemma translate_accounts_for_source_witness :
  two_templates
  = source_text (invocations (Py.count marker two_templates) two_templates)
    ++ prog (fst (translate "src" two_templates))
  /\ cfile (fst (translate "src" two_templates))
     = host_text "src" 0
         (invocations (Py.count marker two_templates) two_templates)
       ++ prog (fst (translate "src" two_templates))
  /\ List.length (invocations (Py.count marker two_templates) two_templates)
     = Py.count marker two_templates
  /\ Forall (fun g => Py.find marker (fst g) = -1)
       (invocations (Py.count marker two_templates) two_templates).
Proof.
  apply (translate_accounts_for_source "src" two_templates
           (fst (translate "src" two_templates))).
  reflexivity.
Defined.

(** ** A marker inside a consumed span *)

Lemma kernel_text_small (kname args template : string) (parts : list string) :
  parts <> [] -> (List.length parts <= 3)%nat ->
  exists text, kernel_text kname parts args template = Ok text.
Proof.
  intros Hne Hlen.
  destruct parts as [|p0 [|p1 [|p2 [|p3 ps]]]];
    [congruence | | | | cbn [List.length] in Hlen; lia];
    eexists; reflexivity.
Qed.

(** An iteration ends with IndexError only on an invocation with more
    than three dimension names. *)
Lemma body_index_error (fname : string) (k : nat) (st st' : state) :
  body fname k st = (st', Some IndexError) ->
  (3 < dims_at (prog st))%nat.
Proof.
  rewrite body_eq. unfold dims_at, kernel_fragment.
  destruct (Py.find_nat marker (prog st)) as [i|]; [|discriminate].
  cbv zeta.
  destruct (Nat.le_gt_cases
              (List.length (parts_of (Py.slice_from (Z.of_nat i + 14) (prog st))))
              3) as [Hle|Hgt]; [|intros _; exact Hgt].
  destruct (kernel_text_small (kname_of k fname)
              (args_of (Py.slice_from (Z.of_nat i + 14) (prog st)))
              (template_of (Py.slice_from (Z.of_nat i + 14) (prog st)))
              (parts_of (Py.slice_from (Z.of_nat i + 14) (prog st)))
              (split_nonempty _ _) Hle) as [t ->].
  discriminate.
Qed.

Lemma loop_index_error_point (fname : string) (ks : list nat) :
  forall st st', loop fname ks st = (st', Some IndexError) ->
    exists a k b st_j,
      ks = (a ++ k :: b)%list
      /\ loop fname a st = (st_j, None)
      /\ (3 < dims_at (prog st_j))%nat.
Proof.
  induction ks as [|k ks IH]; intros st st' H; cbn [loop] in H; [discriminate|].
  destruct (body fname k st) as [st1 [e|]] eqn:Hb.
  - injection H as -> ->. exists [], k, ks, st.
    repeat split. now apply (body_index_error fname k st st').
  - destruct (IH _ _ H) as (a & j & b & st_j & -> & Hl & Hd).
    exists (k :: a), j, b, st_j. cbn [List.app loop]. rewrite Hb. auto.
Qed.

(** C10, as the code has it: the number of iterations is the number of
    markers counted in the whole source before the loop starts, and every
    iteration searches the buffer that is left; so if, at some iteration
    that is reached, the marker stands inside the span which that
    iteration drops, the run cannot complete.  It ends with the
    ValueError of a later marker search, unless an invocation with more
    than three dimensions is reached before that search: then it ends
    with the IndexError of that invocation. *)
Theorem marker_in_consumed_span_aborts
  (fname source : string) (k : nat) (st : state) :
  (k < Py.count marker source)%nat ->
  loop fname (seq 0 k) (init source) = (st, None) ->
  marker_in_span (prog st) = true ->
  snd (translate fname source) = Some ValueError
  \/ (snd (translate fname source) = Some IndexError
      /\ exists j st_j,
           (j < Py.count marker source)%nat
           /\ loop fname (seq 0 j) (init source) = (st_j, None)
           /\ (3 < dims_at (prog st_j))%nat).
Proof.
  intros Hk Hloop Hspan.
  destruct (translate_knames fname source) as [_ ->].
  assert (Hend : exists st' e,
             loop fname (seq 0 (Py.count marker source)) (init source)
             = (st', Some e)).
  { replace (Py.count marker source)
      with (k + S (Py.count marker source - S k))%nat by lia.
    rewrite seq_app, loop_app, Hloop. cbn [seq loop Nat.add].
    pose proof (loop_occ _ _ _ _ Hloop) as H0.
    rewrite length_seq in H0. cbn [init prog] in H0.
    rewrite <- (count_marker_occ source) in H0.
    destruct (body fname k st) as [st1 [e|]] eqn:Hb; [eauto|].
    pose proof (body_occ _ _ _ _ Hb) as H1. rewrite Hspan in H1.
    destruct (loop fname (seq (S k) (Py.count marker source - S k)) st1)
      as [st2 [e|]] eqn:Hl; [eauto|].
    pose proof (loop_occ _ _ _ _ Hl) as H2. rewrite length_seq in H2. lia. }
  destruct Hend as (st' & e & Hl). rewrite Hl. cbn [snd].
  destruct (loop_raises _ _ _ _ _ Hl) as [->| ->]; [left; reflexivity|].
  right. split; [reflexivity|].
  destruct (loop_index_error_point _ _ _ _ Hl) as (a & j & b & st_j & Hs & Ha & Hd).
  exists (List.length a), st_j.
  rewrite <- (seq_prefix _ _ _ _ Hs).
  repeat split; [exact (seq_prefix_length _ _ _ _ Hs) | exact Ha | exact Hd].
Qed.

Lemma marker_in_consumed_span_aborts_witness :
  snd (translate "src" marker_in_body) = Some ValueError
  \/ (snd (translate "src" marker_in_body) = Some IndexError
      /\ exists j st_j,
           (j < Py.count marker marker_in_body)%nat
           /\ loop "src" (seq 0 j) (init marker_in_body) = (st_j, None)
           /\ (3 < dims_at (prog st_j))%nat).
Proof.
  apply (marker_in_consumed_span_aborts "src" marker_in_body 0
           (init marker_in_body)).
  - vm_compute. lia.
  - reflexivity.
  - reflexivity.
Defined.

(** C10 as stated fails: the first body holds the marker, but no marker
    search ever fails: the second iteration finds the invocation with
    four dimensions and the run ends there with IndexError. *)
Lemma marker_in_span_without_failed_search :
  marker_in_span (prog (init marker_then_four)) = true
  /\ loop "src" (seq 0 0) (init marker_then_four)
     = (init marker_then_four, None)
  /\ Py.count marker marker_then_four = 3%nat
  /\ snd (translate "src" marker_then_four) = Some IndexError.
Proof. repeat split; reflexivity. Qed.
